(** * Work & project lab notebook: persistence, query and export layer

    A shallow embedding of [streamlit_work_project_lab_notebook_app.py]:
    the three SQLite tables and the statements run against them
    ([upsert_project], [insert_entry], [insert_attachment],
    [query_entries]), the form handler [quick_capture] and the two
    exports of [entries_view] / [export_markdown].

    Conventions of the embedding.
    - A Python [str] and an SQL TEXT value are a [string]; one [ascii] is
      one character.  SQL NULL and Python [None] are [None].
    - Integers are [Z].  A duration is an IEEE-754 value ([spec_float]).
    - The database file is a value of type [db], threaded explicitly:
      every operation opens its own connection ([get_conn]), runs, commits
      and closes, so an operation is a function from the state before to a
      result and the state after.  An exception of the driver is the
      result [Raised]; nothing is committed on that path.  The connection
      such a call leaves open is accounted for in [store].
    - [datetime.utcnow().isoformat()] is the argument [now].
    - SQL is not modelled as text: each statement is the relational
      operation it denotes (three-valued logic included). *)

From Stdlib Require Import ZArith List String Ascii Bool Lia.
From Stdlib Require Import Permutation Sorted.
From Stdlib Require Import Floats.SpecFloat.
From Stdlib Require DecimalString.
Import ListNotations.

Open Scope list_scope.
Open Scope string_scope.
Open Scope Z_scope.

(** ** Text *)

Definition nl : string := String (ascii_of_nat 10) "".
Definition dquote : string := String (ascii_of_nat 34) "".

Definition code (c : ascii) : Z := Z.of_N (N_of_ascii c).

(** Truthiness of a Python [str], of an [Optional[str]] and of a [float]. *)
Definition truthy_str (s : string) : bool :=
  match s with EmptyString => false | String _ _ => true end.

Definition truthy_opt_str (o : option string) : bool :=
  match o with Some s => truthy_str s | None => false end.

Definition truthy_float (x : spec_float) : bool :=
  match x with S754_zero _ => false | _ => true end.

(** [str.isspace] on one character (code points below 256). *)
Definition isspace (c : ascii) : bool :=
  let n := code c in
  ((9 <=? n) && (n <=? 13)) || ((28 <=? n) && (n <=? 32))
  || (n =? 133) || (n =? 160).

Fixpoint lstrip (s : string) : string :=
  match s with
  | String c s' => if isspace c then lstrip s' else s
  | EmptyString => EmptyString
  end.

Fixpoint rstrip (s : string) : string :=
  match s with
  | String c s' =>
      match rstrip s' with
      | EmptyString => if isspace c then EmptyString else String c EmptyString
      | t => String c t
      end
  | EmptyString => EmptyString
  end.

(** [str.strip()] *)
Definition strip (s : string) : string := rstrip (lstrip s).

(** ** Dates and their ISO text *)

Record date := mk_date { year : Z; month : Z; day : Z }.

(** A naive [datetime.datetime] (no [tzinfo]), as the pickers of the
    form and [datetime.now()] produce. *)
Record datetime := mk_datetime {
  dt_date : date; hour : Z; minute : Z; second : Z; microsecond : Z }.

Definition is_leap (y : Z) : bool :=
  ((y mod 4 =? 0) && negb (y mod 100 =? 0)) || (y mod 400 =? 0).

Definition days_in_month (y m : Z) : Z :=
  if m =? 2 then (if is_leap y then 29 else 28)
  else if (m =? 4) || (m =? 6) || (m =? 9) || (m =? 11) then 30
  else 31.

(** The ranges Python's constructors enforce. *)
Definition valid_date (d : date) : bool :=
  (1 <=? year d) && (year d <=? 9999) &&
  (1 <=? month d) && (month d <=? 12) &&
  (1 <=? day d) && (day d <=? days_in_month (year d) (month d)).

Definition valid_datetime (t : datetime) : bool :=
  valid_date (dt_date t) &&
  (0 <=? hour t) && (hour t <=? 23) &&
  (0 <=? minute t) && (minute t <=? 59) &&
  (0 <=? second t) && (second t <=? 59) &&
  (0 <=? microsecond t) && (microsecond t <=? 999999).

Definition digit (n : Z) : ascii := ascii_of_N (Z.to_N (48 + n mod 10)).

(** ["%0wd" % n] for a field that fits in [w] digits. *)
Fixpoint zpad (w : nat) (n : Z) : string :=
  match w with
  | O => ""
  | S w' => zpad w' (n / 10) ++ String (digit n) ""
  end.

(** [date.isoformat()] *)
Definition date_isoformat (d : date) : string :=
  zpad 4 (year d) ++ "-" ++ zpad 2 (month d) ++ "-" ++ zpad 2 (day d).

(** The fraction of a second is printed only when the microsecond field
    is not zero. *)
Definition fraction (us : Z) : string :=
  if us =? 0 then "" else "." ++ zpad 6 us.

(** [datetime.isoformat()] of a naive value. *)
Definition isoformat (t : datetime) : string :=
  date_isoformat (dt_date t) ++ "T" ++
  zpad 2 (hour t) ++ ":" ++ zpad 2 (minute t) ++ ":" ++ zpad 2 (second t) ++
  fraction (microsecond t).

(** Chronological order, as Python compares [date] and [datetime]. *)
Definition date_compare (a b : date) : comparison :=
  match year a ?= year b with
  | Eq => match month a ?= month b with
          | Eq => day a ?= day b
          | c => c
          end
  | c => c
  end.

Definition date_leb (a b : date) : bool :=
  match date_compare a b with Gt => false | _ => true end.

Definition date_eqb (a b : date) : bool :=
  match date_compare a b with Eq => true | _ => false end.

Definition time_compare (a b : datetime) : comparison :=
  match hour a ?= hour b with
  | Eq => match minute a ?= minute b with
          | Eq => match second a ?= second b with
                  | Eq => microsecond a ?= microsecond b
                  | c => c
                  end
          | c => c
          end
  | c => c
  end.

Definition datetime_compare (a b : datetime) : comparison :=
  match date_compare (dt_date a) (dt_date b) with
  | Eq => time_compare a b
  | c => c
  end.


(** A time in the last half millisecond of its day: rounded to the
    nearest millisecond it is midnight of the next day. *)
Definition rounds_to_next_day (t : datetime) : bool :=
  (hour t =? 23) && (minute t =? 59) && (second t =? 59) &&
  (999500 <=? microsecond t).

(** The last half millisecond of the last day Python can express begins
    here: rounded to the millisecond, this instant and the later ones
    are past the year 9999. *)
Definition end_of_time : datetime :=
  mk_datetime (mk_date 9999 12 31) 23 59 59 999500.

(** *** Reading ISO text back

    Both SQLite's [DATE(x)] and [pd.to_datetime(x).dt.date] read the
    calendar date out of a time string.  The model reads the forms
    [YYYY-MM-DD], and that followed by [T] or a blank and
    [HH:MM], [HH:MM:SS] or [HH:MM:SS.f...]; every output of
    [date_isoformat] and [isoformat] has one of these forms.  Any other
    text is not a date here. *)

Definition digit_val (c : ascii) : option Z :=
  let n := code c in
  if (48 <=? n) && (n <=? 57) then Some (n - 48) else None.

Fixpoint read_digits (w : nat) (acc : Z) (s : string) : option (Z * string) :=
  match w with
  | O => Some (acc, s)
  | S w' =>
      match s with
      | String c s' =>
          match digit_val c with
          | Some v => read_digits w' (10 * acc + v) s'
          | None => None
          end
      | EmptyString => None
      end
  end.

Definition expect (c : ascii) (s : string) : option string :=
  match s with
  | String c' s' => if Ascii.eqb c c' then Some s' else None
  | EmptyString => None
  end.

Fixpoint all_digits (s : string) : bool :=
  match s with
  | EmptyString => true
  | String c s' =>
      match digit_val c with Some _ => all_digits s' | None => false end
  end.

Definition in_range (lo hi v : Z) : bool := (lo <=? v) && (v <=? hi).

(** The part after [HH:MM]: nothing, [:SS], or [:SS.] and digits. *)
Definition seconds_ok (s : string) : bool :=
  match s with
  | EmptyString => true
  | _ =>
      match expect ":" s with
      | None => false
      | Some s1 =>
          match read_digits 2 0 s1 with
          | None => false
          | Some (ss, s2) =>
              in_range 0 59 ss &&
              match s2 with
              | EmptyString => true
              | String c s3 =>
                  Ascii.eqb c "." && truthy_str s3 && all_digits s3
              end
          end
      end
  end.

(** The part after the date: nothing, or a separator and a time. *)
Definition time_ok (s : string) : bool :=
  match s with
  | EmptyString => true
  | String c s0 =>
      (Ascii.eqb c "T" || Ascii.eqb c " ") &&
      match read_digits 2 0 s0 with
      | None => false
      | Some (hh, s1) =>
          in_range 0 23 hh &&
          match expect ":" s1 with
          | None => false
          | Some s2 =>
              match read_digits 2 0 s2 with
              | None => false
              | Some (mi, s3) => in_range 0 59 mi && seconds_ok s3
              end
          end
      end
  end.

Definition parse_iso_date (s : string) : option date :=
  match read_digits 4 0 s with
  | None => None
  | Some (y, s1) =>
  match expect "-" s1 with
  | None => None
  | Some s2 =>
  match read_digits 2 0 s2 with
  | None => None
  | Some (m, s3) =>
  match expect "-" s3 with
  | None => None
  | Some s4 =>
  match read_digits 2 0 s4 with
  | None => None
  | Some (d, s5) =>
      let r := mk_date y m d in
      if in_range 1 12 m && in_range 1 (days_in_month y m) d && time_ok s5
      then Some r else None
  end end end end end.

(** ** The database *)

(** Rows of the three tables of [init_db], column for column.  A column
    declared NOT NULL holds a value; any other column holds an option. *)
Record project := mk_project {
  p_id : Z;
  p_name : string;
  p_base_path : option string;
  p_created_at : string }.

Record entry := mk_entry {
  e_id : Z;
  e_ts : string;
  e_title : string;
  e_project_id : option Z;
  e_work_type : option string;
  e_tags : option string;
  e_path : option string;
  e_duration_hours : option spec_float;
  e_notes_md : option string;
  e_created_at : string }.

Record attachment := mk_attachment {
  a_id : Z;
  a_entry_id : Z;
  a_filename : string;
  a_rel_path : string;
  a_created_at : string }.

(** A table is its rows in rowid order.  Each table is AUTOINCREMENT, so
    the file also keeps, per table, the largest rowid ever handed out
    ([sqlite_sequence]). *)
Record db := mk_db {
  projects : list project;
  projects_seq : Z;
  entries : list entry;
  entries_seq : Z;
  attachments : list attachment;
  attachments_seq : Z }.

(** [init_db] on a fresh file. *)
Definition init_db : db := mk_db [] 0 [] 0 [] 0.

(** [get_conn]: a connection with its pragmas.  SQLite leaves foreign
    keys unenforced unless the connection turns them on. *)
Record conn := mk_conn { foreign_keys : bool }.

Definition sqlite3_connect : conn := mk_conn false.
Definition pragma_foreign_keys (on : bool) (c : conn) : conn := mk_conn on.
Definition get_conn : conn := pragma_foreign_keys true sqlite3_connect.

Inductive IntegrityError :=
| FOREIGN_KEY_constraint_failed
| UNIQUE_constraint_failed.

(** What a call on the database raises. *)
Inductive raised :=
| Integrity_error (e : IntegrityError)  (* sqlite3.IntegrityError *)
| Overflow_error      (* OverflowError: Python int too large to convert to
                         SQLite INTEGER *)
| Database_is_locked. (* sqlite3.OperationalError: database is locked *)

(** The integers the driver can bind: those of 64 bits, signed. *)
Definition in_int64 (z : Z) : bool :=
  (- 2 ^ 63 <=? z) && (z <=? 2 ^ 63 - 1).

Definition opt_in_int64 (o : option Z) : bool :=
  match o with Some z => in_int64 z | None => true end.

Inductive outcome (A : Type) :=
| Returned (a : A)
| Raised (e : raised).
Arguments Returned {A} a.
Arguments Raised {A} e.

(** The rowid an AUTOINCREMENT table gives its next row: one more than
    the largest rowid that is, or ever was, in the table. *)
Definition max_rowid (ids : list Z) : Z := fold_right Z.max 0 ids.

Definition next_rowid (seq : Z) (ids : list Z) : Z :=
  Z.max seq (max_rowid ids) + 1.

(** A Python float as the REAL column gives it back: SQLite stores a
    NaN as NULL, and a zero of either sign comes back as the positive
    zero. *)
Definition bind_real (x : option spec_float) : option spec_float :=
  match x with
  | Some S754_nan => None
  | Some (S754_zero _) => Some (S754_zero false)
  | _ => x
  end.

(** *** Projects *)

(** [SELECT id FROM projects WHERE name = ?] *)
Definition select_project_ids (d : db) (name : string) : list Z :=
  map p_id (filter (fun p => String.eqb (p_name p) name) (projects d)).

(** [cur.fetchone()] *)
Definition fetchone {A : Type} (rows : list A) : option A :=
  match rows with r :: _ => Some r | [] => None end.

Definition get_project_id_by_name (d : db) (name : string) : option Z :=
  fetchone (select_project_ids d name).

Definition set_base_path (base_path : option string) (p : project) : project :=
  mk_project (p_id p) (p_name p) base_path (p_created_at p).

(** [UPDATE projects SET base_path = ? WHERE name = ?] *)
Definition update_base_path (base_path : option string) (name : string)
    (ps : list project) : list project :=
  map (fun p => if String.eqb (p_name p) name then set_base_path base_path p
                else p) ps.

(** [INSERT INTO projects(name, base_path, created_at) VALUES (?, ?, ?)] *)
Definition insert_project_row (d : db) (name : string)
    (base_path : option string) (now : string) : outcome unit * db :=
  if existsb (fun p => String.eqb (p_name p) name) (projects d)
  then (Raised (Integrity_error UNIQUE_constraint_failed), d)
  else
    let id := next_rowid (projects_seq d) (map p_id (projects d)) in
    (Returned tt,
     mk_db ((projects d ++ [mk_project id name base_path now])%list) id
           (entries d) (entries_seq d)
           (attachments d) (attachments_seq d)).

Definition upsert_project (d : db) (name : string) (base_path : option string)
    (now : string) : outcome unit * db :=
  match fetchone (select_project_ids d name) with
  | Some _ =>
      (Returned tt,
       mk_db (update_base_path base_path name (projects d)) (projects_seq d)
             (entries d) (entries_seq d)
             (attachments d) (attachments_seq d))
  | None => insert_project_row d name base_path now
  end.

(** *** Entries *)

(** The check behind [FOREIGN KEY(project_id) REFERENCES projects(id)]:
    made only on a connection that enforces foreign keys; a NULL
    reference always passes.  An id beyond 64 bits is the id of no row,
    and the driver refuses to bind it: where the reference is not found,
    the call raises [OverflowError] for such an id and the constraint
    error for any other. *)
Definition project_fk_ok (c : conn) (d : db) (project_id : option Z) : bool :=
  negb (foreign_keys c) ||
  match project_id with
  | None => true
  | Some pid => existsb (fun p => p_id p =? pid) (projects d)
  end.

Definition insert_entry (d : db) (ts : datetime) (title : string)
    (project_id : option Z) (work_type tags path : string)
    (duration_hours : option spec_float) (notes_md : string)
    (now : string) : outcome Z * db :=
  let c := get_conn in
  if project_fk_ok c d project_id then
    let id := next_rowid (entries_seq d) (map e_id (entries d)) in
    let row := mk_entry id (isoformat ts) title project_id (Some work_type)
                 (Some tags) (Some path) (bind_real duration_hours)
                 (Some notes_md) now in
    (Returned id,
     mk_db (projects d) (projects_seq d)
           ((entries d ++ [row])%list) id
           (attachments d) (attachments_seq d))
  else if opt_in_int64 project_id
  then (Raised (Integrity_error FOREIGN_KEY_constraint_failed), d)
  else (Raised Overflow_error, d).

(** *** Attachments *)

(** The check behind [FOREIGN KEY(entry_id) REFERENCES entries(id)]. *)
Definition entry_fk_ok (c : conn) (d : db) (entry_id : Z) : bool :=
  negb (foreign_keys c) || existsb (fun e => e_id e =? entry_id) (entries d).

Definition insert_attachment (d : db) (entry_id : Z)
    (filename rel_path now : string) : outcome unit * db :=
  let c := get_conn in
  if entry_fk_ok c d entry_id then
    let id := next_rowid (attachments_seq d) (map a_id (attachments d)) in
    (Returned tt,
     mk_db (projects d) (projects_seq d)
           (entries d) (entries_seq d)
           ((attachments d ++ [mk_attachment id entry_id filename rel_path now])%list)
           id)
  else if in_int64 entry_id
  then (Raised (Integrity_error FOREIGN_KEY_constraint_failed), d)
  else (Raised Overflow_error, d).

(** *** The connection a raising call leaves open

    Each write runs [conn.execute] inside the transaction the driver
    opens, and only then [commit] and [close].  When the INSERT fails its
    foreign key, the exception leaves the function with the transaction
    open: nothing is written, but that connection holds the file's write
    lock until the interpreter collects it, and a write made meanwhile
    waits and raises [database is locked].  A [store] is the file
    together with that lock. *)
Record store := mk_store { st_db : db; st_locked : bool }.

(** The interpreter collects the connection left open. *)
Definition collect (s : store) : store := mk_store (st_db s) false.

Definition after_call {A : Type} (s : store) (r : outcome A * db)
    : outcome A * store :=
  match r with
  | (Raised (Integrity_error e), d') =>
      (Raised (Integrity_error e), mk_store d' true)
  | (o, d') => (o, mk_store d' (st_locked s))
  end.

(** [insert_attachment] and [insert_entry] as calls on a store.  An id
    the driver cannot bind is refused before the file is touched. *)
Definition insert_attachment_call (s : store) (entry_id : Z)
    (filename rel_path now : string) : outcome unit * store :=
  if st_locked s && in_int64 entry_id then (Raised Database_is_locked, s)
  else after_call s (insert_attachment (st_db s) entry_id filename rel_path now).

Definition insert_entry_call (s : store) (ts : datetime) (title : string)
    (project_id : option Z) (work_type tags path : string)
    (duration_hours : option spec_float) (notes_md : string)
    (now : string) : outcome Z * store :=
  if st_locked s && opt_in_int64 project_id then (Raised Database_is_locked, s)
  else after_call s (insert_entry (st_db s) ts title project_id work_type tags
                       path duration_hours notes_md now).


(** *** The form handler

    The [if submitted:] branch of [quick_capture], up to the insert.
    [None] is the early [return] after [st.error]. *)
Record capture_form := mk_capture_form {
  f_title : string;
  f_ts : datetime;
  f_path : string;
  f_work_type : string;
  f_tags : string;
  f_duration : spec_float;
  f_notes : string }.

Definition quick_capture (d : db) (active_project_id : option Z)
    (f : capture_form) (now : string) : option (outcome Z * db) :=
  if negb (truthy_str (strip (f_title f))) then None
  else Some (insert_entry d (f_ts f) (strip (f_title f)) active_project_id
               (f_work_type f) (strip (f_tags f)) (strip (f_path f))
               (if truthy_float (f_duration f) then Some (f_duration f)
                else None)
               (f_notes f) now).

(** ** Querying *)

(** *** SQL values and operators *)

(** Three-valued logic: [None] is SQL's unknown. *)
Definition sql_or (a b : option bool) : option bool :=
  match a, b with
  | Some true, _ | _, Some true => Some true
  | Some false, Some false => Some false
  | _, _ => None
  end.

Definition sql_and (a b : option bool) : option bool :=
  match a, b with
  | Some false, _ | _, Some false => Some false
  | Some true, Some true => Some true
  | _, _ => None
  end.

(** A WHERE clause keeps the rows on which it is true. *)
Definition is_true (v : option bool) : bool :=
  match v with Some true => true | _ => false end.

(** [a >= b] and [a <= b] on TEXT (BINARY collation). *)
Definition sql_text_ge (a b : option string) : option bool :=
  match a, b with
  | Some x, Some y => Some (String.leb y x)
  | _, _ => None
  end.

Definition sql_text_le (a b : option string) : option bool :=
  match a, b with
  | Some x, Some y => Some (String.leb x y)
  | _, _ => None
  end.

(** The characters of [s] after the first [n]. *)
Fixpoint skip (n : nat) (s : string) : string :=
  match n, s with
  | S n', String _ s' => skip n' s'
  | _, _ => s
  end.

(** Whether a time [THH:MM:SS.ffff...] is 23:59:59.9995 or later.  The
    fraction is read to its fourth digit, which decides it for the six
    digits [isoformat] writes. *)
Definition rounds_to_midnight (time : string) : bool :=
  match time with
  | EmptyString => false
  | String _ s0 =>
  match read_digits 2 0 s0 with
  | Some (hh, String _ s1) =>
  match read_digits 2 0 s1 with
  | Some (mi, String _ s2) =>
  match read_digits 2 0 s2 with
  | Some (ss, String _ s3) =>
  match read_digits 4 0 s3 with
  | Some (f, _) => (hh =? 23) && (mi =? 59) && (ss =? 59) && (9995 <=? f)
  | None => false
  end
  | _ => false end
  | _ => false end
  | _ => false end
  end.

(** [DATE(x)].  SQLite gives back the year, month and day it read.  It
    also counts the milliseconds of the time string, the seconds rounded
    to the nearest millisecond, and the result is NULL when the count
    passes the last millisecond of the year 9999, which it does from
    9999-12-31T23:59:59.9995 on. *)
Definition sql_date (x : option string) : option string :=
  match x with
  | Some s =>
      match parse_iso_date s with
      | Some d =>
          if date_eqb d (mk_date 9999 12 31) && rounds_to_midnight (skip 10 s)
          then None
          else Some (date_isoformat d)
      | None => None
      end
  | None => None
  end.

(** [x IN (?, ..., ?)] with a non-empty list of integers, once they are
    bound (see [query_entries_call]). *)
Definition sql_in (x : option Z) (vs : list Z) : option bool :=
  match x with
  | Some v => Some (existsb (Z.eqb v) vs)
  | None => None
  end.

(** LIKE folds the case of the ASCII letters only. *)
Definition lower (c : ascii) : ascii :=
  let n := code c in
  if (65 <=? n) && (n <=? 90) then ascii_of_N (Z.to_N (n + 32)) else c.

(** The matching of LIKE: [%] stands for any run of characters, [_] for
    any one character, any other character for itself up to ASCII
    case. *)
Fixpoint pattern_compare (pat : string) : string -> bool :=
  match pat with
  | EmptyString =>
      fun s => match s with EmptyString => true | String _ _ => false end
  | String p pat' =>
      if Ascii.eqb p "%" then
        fix star (s : string) : bool :=
          pattern_compare pat' s ||
          match s with EmptyString => false | String _ s' => star s' end
      else if Ascii.eqb p "_" then
        fun s =>
          match s with
          | EmptyString => false
          | String _ s' => pattern_compare pat' s'
          end
      else
        fun s =>
          match s with
          | EmptyString => false
          | String c s' =>
              Ascii.eqb (lower c) (lower p) && pattern_compare pat' s'
          end
  end.

(** A text up to its first NUL character. *)
Fixpoint c_str (s : string) : string :=
  match s with
  | EmptyString => EmptyString
  | String c s' => if code c =? 0 then EmptyString else String c (c_str s')
  end.

(** [s LIKE pat].  SQLite reads the pattern and the value as C strings:
    each ends at its first NUL character, whatever follows it. *)
Definition like (pat s : string) : bool := pattern_compare (c_str pat) (c_str s).

Definition sql_like (x : option string) (pat : string) : option bool :=
  option_map (like pat) x.

(** The length of a text in bytes (UTF-8): the code points from 128 to
    255 take two. *)
Fixpoint utf8_bytes (s : string) : Z :=
  match s with
  | EmptyString => 0
  | String c s' => (if code c <? 128 then 1 else 2) + utf8_bytes s'
  end.

(** What the specification asks of the text filter, in its words: [s]
    occurs in [t] as a substring up to the case of letters (those LIKE
    folds, the ASCII ones).  [ci_contains] decides it. *)
Fixpoint casefold (s : string) : string :=
  match s with
  | EmptyString => EmptyString
  | String c s' => String (lower c) (casefold s')
  end.

Definition ci_substring (s t : string) : Prop :=
  exists pre mid post, t = pre ++ mid ++ post /\ casefold mid = casefold s.

Fixpoint ci_prefix (s t : string) : bool :=
  match s, t with
  | EmptyString, _ => true
  | String _ _, EmptyString => false
  | String a s', String b t' => Ascii.eqb (lower b) (lower a) && ci_prefix s' t'
  end.

Fixpoint ci_contains (s t : string) : bool :=
  ci_prefix s t ||
  match t with
  | EmptyString => false
  | String _ t' => ci_contains s t'
  end.

(** A search text in which no character is a LIKE wildcard, and one in
    which no character is NUL. *)
Fixpoint no_wildcard (s : string) : bool :=
  match s with
  | EmptyString => true
  | String c s' =>
      negb (Ascii.eqb c "%") && negb (Ascii.eqb c "_") && no_wildcard s'
  end.

Fixpoint no_nul (s : string) : bool :=
  match s with
  | EmptyString => true
  | String c s' => negb (code c =? 0) && no_nul s'
  end.

(** *** The rows of [FROM entries e LEFT JOIN projects p ON e.project_id = p.id] *)

Definition join_on (e : entry) (p : project) : bool :=
  match e_project_id e with
  | Some pid => p_id p =? pid
  | None => false
  end.

Definition left_join (es : list entry) (ps : list project)
    : list (entry * option project) :=
  flat_map (fun e =>
    match filter (join_on e) ps with
    | [] => [(e, None)]
    | ms => map (fun p => (e, Some p)) ms
    end) es.

(** *** The filter and its WHERE clause *)

(** The keyword arguments of [query_entries]; [None] is an omitted one. *)
Record query_filter := mk_filter {
  start : option date;
  end_ : option date;
  project_ids : option (list Z);
  text : option string;
  tags_like : option string }.

Definition no_filter : query_filter := mk_filter None None None None None.

(** An element of [conditions] together with its share of [params]. *)
Inductive condition :=
| Date_ge (param : string)        (* DATE(ts) >= DATE(?) *)
| Date_le (param : string)        (* DATE(ts) <= DATE(?) *)
| Project_in (params : list Z)    (* project_id IN (?,...,?) *)
| Text_like (param : string)      (* (title LIKE ? OR notes_md LIKE ? OR path LIKE ?) *)
| Tags_like (param : string).     (* tags LIKE ? *)

(** Python truthiness of an [Optional[List[int]]]. *)
Definition truthy_opt_list {A : Type} (o : option (list A)) : bool :=
  match o with Some (_ :: _) => true | _ => false end.

(** The five [if] statements, in order.  A [date] is always truthy. *)
Definition conditions (f : query_filter) : list condition :=
  ((match start f with Some d => [Date_ge (date_isoformat d)] | None => [] end)
   ++ (match end_ f with Some d => [Date_le (date_isoformat d)] | None => [] end)
   ++ (if truthy_opt_list (project_ids f)
       then match project_ids f with Some ids => [Project_in ids] | None => [] end
       else [])
   ++ (if truthy_opt_str (text f)
       then match text f with Some t => [Text_like ("%" ++ t ++ "%")] | None => [] end
       else [])
   ++ (if truthy_opt_str (tags_like f)
       then match tags_like f with Some t => [Tags_like ("%" ++ t ++ "%")] | None => [] end
       else []))%list.

Definition eval_condition (e : entry) (c : condition) : option bool :=
  match c with
  | Date_ge p => sql_text_ge (sql_date (Some (e_ts e))) (sql_date (Some p))
  | Date_le p => sql_text_le (sql_date (Some (e_ts e))) (sql_date (Some p))
  | Project_in ids => sql_in (e_project_id e) ids
  | Text_like p =>
      sql_or (sql_or (sql_like (Some (e_title e)) p) (sql_like (e_notes_md e) p))
             (sql_like (e_path e) p)
  | Tags_like p => sql_like (e_tags e) p
  end.

(** [" AND ".join(conditions)]; with no condition there is no WHERE. *)
Definition eval_where (cs : list condition) (e : entry) : bool :=
  match cs with
  | [] => true
  | c :: cs' =>
      is_true (fold_left (fun acc c' => sql_and acc (eval_condition e c'))
                         cs' (eval_condition e c))
  end.

(** *** The result *)

(** A row of the DataFrame [query_entries] returns.  A NULL is [None];
    in the duration column that is the NaN pandas shows, the value
    [pd.notna] rejects. *)
Record row := mk_row {
  r_id : Z;
  r_ts : string;
  r_title : string;
  r_project : string;
  r_work_type : option string;
  r_tags : option string;
  r_path : option string;
  r_duration_hours : option spec_float;
  r_notes_md : option string }.

Definition ifnull (x : option string) (dflt : string) : string :=
  match x with Some s => s | None => dflt end.

(** The SELECT list. *)
Definition select_row (ep : entry * option project) : row :=
  let (e, p) := ep in
  mk_row (e_id e) (e_ts e) (e_title e)
         (ifnull (option_map p_name p) "")
         (e_work_type e) (e_tags e) (e_path e)
         (e_duration_hours e) (e_notes_md e).

(** The project an entry refers to, if there is one, and the row the
    entry then gives. *)
Definition project_of (ps : list project) (e : entry) : option project :=
  match e_project_id e with
  | Some pid => find (fun p => p_id p =? pid) ps
  | None => None
  end.

Definition row_of (ps : list project) (e : entry) : row :=
  select_row (e, project_of ps e).

Section Sorting.
Context {A : Type} (leb : A -> A -> bool).

Fixpoint insert_by (x : A) (l : list A) : list A :=
  match l with
  | [] => [x]
  | y :: l' => if leb x y then x :: l else y :: insert_by x l'
  end.

(** A stable sort. *)
Definition sort_by (l : list A) : list A := fold_right insert_by [] l.
End Sorting.

(** [ORDER BY e.ts DESC]: SQL leaves the order of rows with equal keys
    open; the properties below are stated so as to hold of any such
    order. *)
Definition ts_desc (a b : row) : bool := String.leb (r_ts b) (r_ts a).

Definition query_entries (d : db) (f : query_filter) : list row :=
  let cs := conditions f in
  sort_by ts_desc
    (map select_row
       (filter (fun ep => eval_where cs (fst ep))
          (left_join (entries d) (projects d)))).

(** *** The call

    [query_entries] is the frame of the rows the statement selects.  The
    call raises instead of returning it in three cases: the statement
    has more [?] than the build of SQLite takes; a project id does not
    fit the 64-bit INTEGER the driver binds an [int] to; a LIKE is
    evaluated whose pattern is longer than 50000 bytes.  SQLite
    evaluates the terms of the AND in order and leaves a row at the
    first one that is not true, so a LIKE is evaluated on the rows that
    pass the terms before it. *)

Section Limits.
(** [SQLITE_MAX_VARIABLE_NUMBER] of the build. *)
Variable max_variable_number : Z.

(** [SQLITE_MAX_LIKE_PATTERN_LENGTH] *)
Definition max_like_pattern_length : Z := 50000.

(** The [?] of a condition. *)
Definition variable_number (c : condition) : Z :=
  match c with
  | Project_in ids => Z.of_nat (List.length ids)
  | Text_like _ => 3
  | Date_ge _ | Date_le _ | Tags_like _ => 1
  end.

Definition binds (c : condition) : bool :=
  match c with
  | Project_in ids => forallb in_int64 ids
  | _ => true
  end.

Definition pattern_too_complex (c : condition) : bool :=
  match c with
  | Text_like p | Tags_like p => max_like_pattern_length <? utf8_bytes p
  | _ => false
  end.

(** Whether the evaluation of the WHERE clause on [e] meets a LIKE that
    is refused. *)
Fixpoint like_refused (e : entry) (cs : list condition) : bool :=
  match cs with
  | [] => false
  | c :: cs' =>
      pattern_too_complex c
      || (is_true (eval_condition e c) && like_refused e cs')
  end.

(** [query_entries] as a call: [None] when it raises. *)
Definition query_entries_call (d : db) (f : query_filter) : option (list row) :=
  let cs := conditions f in
  if (fold_right Z.add 0 (map variable_number cs) <=? max_variable_number)
     && forallb binds cs
     && negb (existsb (fun e => like_refused e cs) (entries d))
  then Some (query_entries d f)
  else None.
End Limits.

(** ** Exporting *)

Section Exporting.
(** What the exports take from their environment: the line separator
    of the platform, how a float prints, and [human_path_link], which
    looks the path up in the file system. *)
Variable linesep : string.
Variable repr_float : spec_float -> string.
Variable human_path_link : string -> string.

(** [df.empty] *)
Definition df_empty (rows : list row) : bool :=
  match rows with [] => true | _ :: _ => false end.

(** *** CSV *)

Definition str_of_int (z : Z) : string :=
  DecimalString.NilZero.string_of_int (Z.to_int z).

Fixpoint contains_char (f : ascii -> bool) (s : string) : bool :=
  match s with
  | EmptyString => false
  | String c s' => f c || contains_char f s'
  end.

Fixpoint double_quotes (s : string) : string :=
  match s with
  | EmptyString => EmptyString
  | String c s' =>
      if (code c =? 34) then dquote ++ dquote ++ double_quotes s'
      else String c (double_quotes s')
  end.

(** [csv.QUOTE_MINIMAL]: a field is quoted when it holds the delimiter,
    the quote character or a character of the line terminator, which
    [to_csv] sets to the line separator of the platform. *)
Definition csv_field (s : string) : string :=
  if contains_char (fun c => (code c =? 44) || (code c =? 34)
                             || contains_char (Ascii.eqb c) linesep) s
  then dquote ++ double_quotes s ++ dquote
  else s.

Definition csv_line (fields : list string) : string :=
  String.concat "," (map csv_field fields) ++ linesep.

Definition csv_header : list string :=
  ["id"; "ts"; "title"; "project"; "work_type"; "tags"; "path";
   "duration_hours"].

(** The cells of a row once [notes_md] is dropped; a missing value
    prints as the empty string. *)
Definition csv_cells (r : row) : list string :=
  [str_of_int (r_id r); r_ts r; r_title r; r_project r;
   ifnull (r_work_type r) ""; ifnull (r_tags r) ""; ifnull (r_path r) "";
   match r_duration_hours r with Some x => repr_float x | None => "" end].

(** [df.drop(columns=["notes_md"]).to_csv(index=False)] *)
Definition to_csv (rows : list row) : string :=
  String.concat "" (csv_line csv_header :: map (fun r => csv_line (csv_cells r)) rows).

(** The CSV download of [entries_view]. *)
Definition export_csv (rows : list row) : string :=
  if negb (df_empty rows) then to_csv rows else "".

(** *** Markdown journal *)

(** The format [pd.to_datetime] guesses for a text: the directives that
    read the date and, after the separator, those that read the time
    the text has. *)
Definition time_format (time : string) : string :=
  match time with
  | EmptyString => ""
  | String sep t =>
      String sep
        ("%H:%M" ++ (if Nat.ltb 5 (String.length t) then ":%S" else "")
                 ++ (if Nat.ltb 8 (String.length t) then ".%f" else ""))
  end.

Definition guess_datetime_format (s : string) : option string :=
  match parse_iso_date s with
  | Some _ => Some ("%Y-%m-%d" ++ time_format (skip 10 s))
  | None => None
  end.

(** Reading a text with a format gives its date if the text has that
    format. *)
Definition strptime_date (fmt s : string) : option date :=
  match guess_datetime_format s with
  | Some f => if String.eqb f fmt then parse_iso_date s else None
  | None => None
  end.

Fixpoint array_strptime (fmt : string) (rows : list row)
    : option (list (date * row)) :=
  match rows with
  | [] => Some []
  | r :: rows' =>
      match strptime_date fmt (r_ts r), array_strptime fmt rows' with
      | Some d, Some l => Some ((d, r) :: l)
      | _, _ => None
      end
  end.

(** [pd.to_datetime(df2["ts"]).dt.date].  The format is guessed from the
    first row and every row is read with it.  [None] is where pandas
    raises: on a text that cannot be read, or that has not the format
    of the first, as a timestamp without microseconds has not the
    format of one with microseconds. *)
Definition with_dates (rows : list row) : option (list (date * row)) :=
  match rows with
  | [] => Some []
  | r :: _ =>
      match guess_datetime_format (r_ts r) with
      | Some fmt => array_strptime fmt rows
      | None => None
      end
  end.

(** The distinct keys in ascending order. *)
Fixpoint insert_key (d : date) (l : list date) : list date :=
  match l with
  | [] => [d]
  | y :: l' =>
      match date_compare d y with
      | Lt => d :: l
      | Eq => l
      | Gt => y :: insert_key d l'
      end
  end.

Definition sorted_keys (ds : list date) : list date :=
  fold_right insert_key [] ds.

(** [df2.groupby("date", sort=True)]: one group per date, dates
    ascending, the rows of a group in the order of the frame. *)
Definition groupby_date (rows : list (date * row)) : list (date * list row) :=
  map (fun d => (d, map snd (filter (fun x => date_eqb (fst x) d) rows)))
      (sorted_keys (map fst rows)).

(** [g.sort_values("ts")]: the column [ts] still holds the text. *)
Definition ts_asc (a b : row) : bool := String.leb (r_ts a) (r_ts b).

Definition sort_values_ts (g : list row) : list row := sort_by ts_asc g.

(** The groups in the order the loops visit them and their rows. *)
Definition journal_groups (rows : list row) : option (list (date * list row)) :=
  option_map
    (fun l => map (fun dg => (fst dg, sort_values_ts (snd dg))) (groupby_date l))
    (with_dates rows).

(** A line that is appended only when its value is truthy. *)
Definition line_if (label value : string) : list string :=
  if truthy_str value then [label ++ value ++ nl] else [].

(** The lines appended for one row.  A missing text is taken as [None],
    as a column of objects holds it; [insert_entry] stores a text in
    every text column. *)
Definition entry_lines (r : row) : list string :=
  let path_str :=
    match r_path r with
    | Some p => if truthy_str p then human_path_link p else ""
    | None => ""
    end in
  let head := ["### " ++ r_title r ++ nl; "- **Time:** " ++ r_ts r ++ nl] in
  let dur :=
    match r_duration_hours r with
    | Some x => ["- **Duration:** " ++ repr_float x ++ " h" ++ nl]
    | None => []
    end in
  let notes :=
    match r_notes_md r with
    | Some n => if truthy_str n then [nl ++ n ++ nl] else []
    | None => []
    end in
  List.concat
    [head;
     line_if "- **Project:** " (r_project r);
     line_if "- **Type:** " (ifnull (r_work_type r) "");
     line_if "- **Tags:** " (ifnull (r_tags r) "");
     line_if "- **Path:** " path_str;
     dur;
     notes].

(** The lines appended for one date group. *)
Definition group_lines (dg : date * list row) : list string :=
  (nl ++ "## " ++ date_isoformat (fst dg) ++ nl)
    :: flat_map entry_lines (snd dg).

Definition render_journal (groups : list (date * list row)) : string :=
  String.concat nl (("# Worklog Export" ++ nl) :: flat_map group_lines groups).

Definition no_entries_document : string :=
  "# Worklog" ++ nl ++ nl ++ "_No entries in the selected range._" ++ nl.

Definition export_markdown (rows : list row) : option string :=
  if df_empty rows then Some no_entries_document
  else option_map render_journal (journal_groups rows).
End Exporting.

(** ** The constraints of the schema

    What [init_db] declares and SQLite maintains: primary keys and the
    UNIQUE name identify a row, and a reference points at a row. *)
Record wf_db (d : db) : Prop := mk_wf_db {
  wf_project_ids : NoDup (map p_id (projects d));
  wf_project_names : NoDup (map p_name (projects d));
  wf_entry_ids : NoDup (map e_id (entries d));
  wf_attachment_ids : NoDup (map a_id (attachments d));
  wf_entry_fk : forall e pid,
    In e (entries d) -> e_project_id e = Some pid ->
    In pid (map p_id (projects d));
  wf_attachment_fk : forall a,
    In a (attachments d) -> In (a_entry_id a) (map e_id (entries d)) }.

(** *** The states the application reaches

    The statements that write: the database is what a sequence of them
    makes of a fresh file.  A statement that raises changes nothing. *)
Inductive write_op :=
| Upsert_project (name : string) (base_path : option string) (now : string)
| Insert_entry (ts : datetime) (title : string) (project_id : option Z)
    (work_type tags path : string) (duration_hours : option spec_float)
    (notes_md now : string)
| Insert_attachment (entry_id : Z) (filename rel_path now : string).

Definition run_op (d : db) (o : write_op) : db :=
  match o with
  | Upsert_project name base_path now =>
      snd (upsert_project d name base_path now)
  | Insert_entry ts title project_id work_type tags path duration_hours
      notes_md now =>
      snd (insert_entry d ts title project_id work_type tags path
             duration_hours notes_md now)
  | Insert_attachment entry_id filename rel_path now =>
      snd (insert_attachment d entry_id filename rel_path now)
  end.

Definition run (ops : list write_op) : db := fold_left run_op ops init_db.

(** ** The other reads *)

(** [SELECT id, name, base_path, created_at FROM projects ORDER BY name] *)
Definition name_asc (a b : project) : bool := String.leb (p_name a) (p_name b).

Definition list_projects (d : db) : list project :=
  sort_by name_asc (projects d).

(** [SELECT id, filename, rel_path, created_at FROM attachments
     WHERE entry_id = ? ORDER BY id] *)
Definition id_asc (a b : attachment) : bool := a_id a <=? a_id b.

Definition get_attachments (d : db) (entry_id : Z) : list attachment :=
  sort_by id_asc (filter (fun a => a_entry_id a =? entry_id) (attachments d)).

(** ** The viewer and the sidebar *)

(** [projects_df[projects_df["name"].isin(selected_names)]["id"].tolist()] *)
Definition isin (names : list string) (s : string) : bool :=
  existsb (String.eqb s) names.

Definition selected_ids (d : db) (selected_names : list string) : list Z :=
  map p_id (filter (fun p => isin selected_names (p_name p)) (list_projects d)).

(** The names the multiselect of [entries_view] starts with. *)
Definition default_selection (d : db) : list string :=
  map p_name (list_projects d).

(** The query [entries_view] makes from its widgets.  The two dates and
    the two texts are always given; an empty text is falsy. *)
Definition entries_view_rows (d : db) (start_date end_date : date)
    (selected_names : list string) (search tag : string) : list row :=
  query_entries d
    (mk_filter (Some start_date) (Some end_date)
       (Some (selected_ids d selected_names)) (Some search) (Some tag)).

(** [x or None] and [str(x)] on a text that may be [None]. *)
Definition or_none (s : string) : option string :=
  if truthy_str s then Some s else None.

Definition py_str (x : option string) : string :=
  match x with Some s => s | None => "None" end.

(** The [Save project] button of [sidebar_projects]; [None] is the
    branch that shows the error and saves nothing. *)
Definition sidebar_save_project (d : db) (pname pbase now : string)
    : option (outcome unit * db) :=
  if negb (truthy_str (strip pname)) then None
  else Some (upsert_project d (strip pname) (or_none (strip pbase)) now).

Section Sidebar.
(** The first option of the select box, which stands for no project. *)
Variable none_label : string.

(** Whether pandas gives a column of texts its string type
    ([future.infer_string], the default from pandas 3): a missing value
    of such a column is NaN.  A column without any text, and every
    column of texts otherwise, is a column of objects, where a missing
    value is [None]. *)
Variable infer_string : bool.

Definition has_base_path (p : project) : bool :=
  match p_base_path p with Some _ => true | None => false end.

(** [str(x)] of a cell of the column [base_path] of the frame. *)
Definition str_base_path (frame : list project) (x : option string) : string :=
  match x with
  | Some s => s
  | None => if infer_string && existsb has_base_path frame then "nan"
            else py_str None
  end.

(** What [sidebar_projects] returns for the option selected: the active
    project's id and base path.  [df[df.name == selected].iloc[0]] raises
    an [IndexError], here [None], when no row has the name. *)
Definition sidebar_active (d : db) (selected : string)
    : option (option Z * string) :=
  let df := list_projects d in
  if negb (String.eqb selected none_label) then
    match filter (fun p => String.eqb (p_name p) selected) df with
    | p :: _ => Some (Some (p_id p), str_base_path df (p_base_path p))
    | [] => None
    end
  else Some (None, "").
End Sidebar.

(** [suggested_path = active_project_base or ""], the text the path
    field of [quick_capture] starts with. *)
Definition suggested_path (active_project_base : string) : string :=
  if truthy_str active_project_base then active_project_base else "".

(** ** Rerunning the page *)

(** What the installed Streamlit offers. *)
Record streamlit := mk_streamlit {
  has_rerun : bool;
  has_experimental_rerun : bool }.

Inductive rerun_result :=
| St_rerun            (* st.rerun() was called *)
| St_warning          (* st.warning(...) was shown *)
| RecursionError.     (* the interpreter's stack was exhausted *)

(** [do_rerun]: its second branch calls [do_rerun] itself.  [depth] is
    the number of frames the interpreter still allows. *)
Fixpoint do_rerun (depth : nat) (st : streamlit) : rerun_result :=
  if has_rerun st then St_rerun
  else if has_experimental_rerun st then
    match depth with
    | O => RecursionError
    | S depth' => do_rerun depth' st
    end
  else St_warning.

(** ** Uploaded files *)

(** A [pathlib] path of the POSIX flavour: its root ([""] for a relative
    path) and its components. *)
Record path := mk_path { root : string; parts : list string }.

Fixpoint split_slash (s : string) : list string :=
  match s with
  | EmptyString => [""]
  | String c s' =>
      if Ascii.eqb c "/" then "" :: split_slash s'
      else match split_slash s' with
           | x :: r => String c x :: r
           | [] => [String c ""]
           end
  end.

(** The root of a path text: none, [/], or [//] for exactly two leading
    slashes. *)
Definition splitroot (s : string) : string :=
  match s with
  | String c1 s1 =>
      if Ascii.eqb c1 "/" then
        match s1 with
        | String c2 s2 =>
            if Ascii.eqb c2 "/" then
              match s2 with
              | String c3 _ => if Ascii.eqb c3 "/" then "/" else "//"
              | EmptyString => "//"
              end
            else "/"
        | EmptyString => "/"
        end
      else ""
  | EmptyString => ""
  end.

(** [Path(s)]: empty components and [.] are dropped. *)
Definition parse_path (s : string) : path :=
  mk_path (splitroot s)
    (filter (fun x => negb (String.eqb x "") && negb (String.eqb x "."))
            (split_slash s)).

(** [a / b]: a rooted right operand replaces the left one. *)
Definition joinpath (a b : path) : path :=
  if truthy_str (root b) then b
  else mk_path (root a) (parts a ++ parts b)%list.

(** [str(p)] *)
Definition path_str (p : path) : string :=
  match root p, parts p with
  | EmptyString, [] => "."
  | r, ps => r ++ String.concat "/" ps
  end.

Fixpoint strip_prefix (pre l : list string) : option (list string) :=
  match pre, l with
  | [], _ => Some l
  | x :: pre', y :: l' => if String.eqb x y then strip_prefix pre' l' else None
  | _ :: _, [] => None
  end.

(** [p.relative_to(other)]; [None] is the [ValueError] raised when [p]
    does not lie under [other], as when one is rooted and the other is
    not. *)
Definition relative_to (p other : path) : option path :=
  if String.eqb (root p) (root other) then
    option_map (mk_path "") (strip_prefix (parts other) (parts p))
  else None.

(** [ATTACH_DIR = Path("attachments")] *)
Definition ATTACH_DIR : path := parse_path "attachments".

(** An uploaded file: [uf.name] and [uf.read()]. *)
Record uploaded_file := mk_uploaded_file { uf_name : string; uf_bytes : string }.

(** The database together with the files written so far, each under the
    text of its path. *)
Record world := mk_world { w_db : db; w_files : list (string * string) }.

Definition write_file (name bytes : string) (files : list (string * string))
    : list (string * string) :=
  (name, bytes) :: filter (fun f => negb (String.eqb (fst f) name)) files.

Inductive exception :=
| ValueError
| OSError
| Sqlite3 (e : raised).

Inductive result (A : Type) :=
| Done (a : A)
| Exception (e : exception).
Arguments Done {A} a.
Arguments Exception {A} e.

Section Uploads.
(** What the file system and the process decide: the working directory,
    and whether [mkdir] and [open(..., "wb")] succeed on a path. *)
Variable cwd : path.
Variable can_mkdir : string -> bool.
Variable can_open : string -> bool.

(** The body of the [for] loop, over the files left; each file comes
    with the clock reading of its [insert_attachment]. *)
Fixpoint save_each (entry_id : Z) (base : path)
    (uploaded_files : list (uploaded_file * string))
    (saved : list (string * string)) (w : world)
    : result (list (string * string)) * world :=
  match uploaded_files with
  | [] => (Done saved, w)
  | (uf, now) :: rest =>
      let filename := uf_name uf in
      let dest := joinpath base (parse_path filename) in
      if can_open (path_str dest) then
        let w1 := mk_world (w_db w)
                    (write_file (path_str dest) (uf_bytes uf) (w_files w)) in
        match relative_to dest cwd with
        | None => (Exception ValueError, w1)
        | Some rel =>
            match insert_attachment (w_db w1) entry_id filename (path_str rel) now with
            | (Raised e, _) => (Exception (Sqlite3 e), w1)
            | (Returned _, d') =>
                save_each entry_id base rest
                  (saved ++ [(filename, path_str rel)])%list
                  (mk_world d' (w_files w1))
            end
        end
      else (Exception OSError, w)
  end.

Definition save_uploaded_files (w : world) (entry_id : Z)
    (uploaded_files : list (uploaded_file * string))
    : result (list (string * string)) * world :=
  let base := joinpath ATTACH_DIR (parse_path ("entry_" ++ str_of_int entry_id)) in
  if can_mkdir (path_str base) then save_each entry_id base uploaded_files [] w
  else (Exception OSError, w).

(** The [if submitted:] branch of [quick_capture] with its uploads: the
    entry is inserted, then the files are saved.  [None] is the early
    [return]. *)
Definition quick_capture_submit (w : world) (active_project_id : option Z)
    (f : capture_form) (now : string)
    (uploads : list (uploaded_file * string))
    : option (result (Z * list (string * string)) * world) :=
  match quick_capture (w_db w) active_project_id f now with
  | None => None
  | Some (Raised e, _) => Some (Exception (Sqlite3 e), w)
  | Some (Returned eid, d') =>
      match save_uploaded_files (mk_world d' (w_files w)) eid uploads with
      | (Done saved, w') => Some (Done (eid, saved), w')
      | (Exception e, w') => Some (Exception e, w')
      end
  end.
End Uploads.

(** ** Rowids in order

    What AUTOINCREMENT promises of a table: the ids, in storage order,
    ascend strictly, and each lies between 1 and the table's counter. *)
Definition ids_in_order (seq : Z) (ids : list Z) : Prop :=
  StronglySorted Z.lt ids /\ Forall (fun i => 1 <= i <= seq) ids.

(** ** Words for what [strip] leaves *)

Fixpoint all_space (s : string) : bool :=
  match s with
  | EmptyString => true
  | String c s' => isspace c && all_space s'
  end.

Definition first_char (s : string) : option ascii :=
  match s with String c _ => Some c | EmptyString => None end.

Fixpoint last_char (s : string) : option ascii :=
  match s with
  | EmptyString => None
  | String c EmptyString => Some c
  | String _ s' => last_char s'
  end.

(** A text with no white space at either end. *)
Definition trimmed (s : string) : Prop :=
  (forall c, first_char s = Some c -> isspace c = false) /\
  (forall c, last_char s = Some c -> isspace c = false).

(** ** Sample data *)

Definition sample_time : datetime := mk_datetime (mk_date 2024 3 1) 9 30 0 0.

(** A database holding one entry, without a project. *)
Definition one_entry_db : db :=
  snd (insert_entry init_db sample_time "x" None "Other" "" "" None ""
         "2024-03-01T09:31:00").

Definition zero_duration_form : capture_form :=
  mk_capture_form " Calibrate " sample_time "" "Experiment" "" (S754_zero false) "".

Definition later_time : datetime := mk_datetime (mk_date 2024 3 2) 8 0 0 250000.

(** A search text one byte too long for a LIKE pattern between two [%]. *)
Definition long_text : string :=
  string_of_list_ascii (repeat "x"%char (Z.to_nat 49999)).

Definition next_morning : datetime := mk_datetime (mk_date 2024 3 2) 8 0 0 0.

(** The example of the specification, and a later entry without a
    project. *)
Definition atlas_db : db :=
  let d1 := snd (upsert_project init_db "Atlas" (Some "/home/u/atlas")
                   "2024-03-01T09:00:00") in
  let d2 := snd (insert_entry d1 sample_time "Ran calibration" (Some 1)
                   "Experiment" "calib,v2" "/home/u/atlas/run1"
                   (Some (S754_finite false 3 (-1))) "Passed"
                   "2024-03-01T09:31:00") in
  snd (insert_entry d2 later_time "Read papers" None "Review" "" "" None ""
         "2024-03-02T08:01:00").

(** Two entries stamped to the second, a day apart, the later one
    inserted first. *)
Definition journal_db : db :=
  let d1 := snd (upsert_project init_db "Atlas" (Some "/home/u/atlas")
                   "2024-03-01T09:00:00") in
  let d2 := snd (insert_entry d1 next_morning "Read papers" None "Review" ""
                   "" None "" "2024-03-02T08:01:00") in
  snd (insert_entry d2 sample_time "Ran calibration" (Some 1)
         "Experiment" "calib,v2" "/home/u/atlas/run1"
         (Some (S754_finite false 3 (-1))) "Passed"
         "2024-03-02T08:02:00").


(** [atlas_db] with two attachments on its first entry. *)
Definition attached_db : db :=
  let d1 := snd (insert_attachment atlas_db 1 "plot.png"
                   "attachments/entry_1/plot.png" "2024-03-01T09:32:00") in
  snd (insert_attachment d1 1 "log.txt" "attachments/entry_1/log.txt"
         "2024-03-01T09:33:00").

(** * Properties *)

(** ** Rows identified by a key *)

Section Keyed.
Context {A K : Type} (key : A -> K) (eqb : K -> K -> bool).
Hypothesis eqb_eq : forall x y, eqb x y = true <-> x = y.

Lemma filter_key_absent (k : K) (l : list A) :
  ~ In k (map key l) -> filter (fun q => eqb (key q) k) l = [].
Proof.
  induction l as [|q l IH]; simpl; intros Hk; [reflexivity|].
  destruct (eqb (key q) k) eqn:E.
  - apply eqb_eq in E. tauto.
  - apply IH. tauto.
Qed.

Lemma filter_key_unique (p : A) (l : list A) :
  NoDup (map key l) -> In p l ->
  filter (fun q => eqb (key q) (key p)) l = [p].
Proof.
  induction l as [|q l IH]; simpl; intros Hnd Hin; [contradiction|].
  inversion Hnd as [|? ? Hq Hnd']; subst.
  destruct Hin as [->|Hin].
  - replace (eqb (key p) (key p)) with true
      by (symmetry; apply eqb_eq; reflexivity).
    f_equal. apply filter_key_absent. assumption.
  - destruct (eqb (key q) (key p)) eqn:E.
    + apply eqb_eq in E. exfalso. apply Hq. rewrite E.
      apply in_map. assumption.
    + apply IH; assumption.
Qed.

Lemma existsb_key (k : K) (l : list A) :
  existsb (fun q => eqb (key q) k) l = true <-> In k (map key l).
Proof.
  rewrite existsb_exists, in_map_iff. split.
  - intros (q & Hq & E). exists q. apply eqb_eq in E. auto.
  - intros (q & E & Hq). exists q. split; [assumption|]. apply eqb_eq, E.
Qed.

Lemma existsb_key_false (k : K) (l : list A) :
  existsb (fun q => eqb (key q) k) l = false <-> ~ In k (map key l).
Proof.
  rewrite <- existsb_key. destruct (existsb _ l); intuition congruence.
Qed.
End Keyed.

Lemma max_rowid_ge (ids : list Z) (i : Z) : In i ids -> i <= max_rowid ids.
Proof.
  induction ids as [|j ids IH]; simpl; [contradiction|].
  intros [->|Hi]; [lia|]. specialize (IH Hi). lia.
Qed.

(** A fresh rowid is not in the table. *)
Lemma next_rowid_fresh (seq : Z) (ids : list Z) :
  ~ In (next_rowid seq ids) ids.
Proof.
  intros Hin. apply max_rowid_ge in Hin. unfold next_rowid in Hin. lia.
Qed.

Lemma NoDup_snoc {A : Type} (l : list A) (x : A) :
  NoDup l -> ~ In x l -> NoDup (l ++ [x])%list.
Proof.
  intros Hnd Hx. apply NoDup_app; [assumption|repeat constructor; auto|].
  intros y Hy [<-|[]]. contradiction.
Qed.

(** ** The write operations keep the constraints *)

Lemma wf_init_db : wf_db init_db.
Proof. constructor; simpl; try constructor; intros; contradiction. Qed.

Lemma update_base_path_ids (b : option string) (n : string) (ps : list project) :
  map p_id (update_base_path b n ps) = map p_id ps.
Proof.
  unfold update_base_path. rewrite map_map. apply map_ext.
  intros p. destruct (String.eqb (p_name p) n); reflexivity.
Qed.

Lemma update_base_path_names (b : option string) (n : string) (ps : list project) :
  map p_name (update_base_path b n ps) = map p_name ps.
Proof.
  unfold update_base_path. rewrite map_map. apply map_ext.
  intros p. destruct (String.eqb (p_name p) n); reflexivity.
Qed.

Lemma fetchone_none {A : Type} (l : list A) : fetchone l = None <-> l = [].
Proof. destruct l; simpl; split; congruence. Qed.

Lemma select_project_ids_nil (d : db) (name : string) :
  select_project_ids d name = [] <-> ~ In name (map p_name (projects d)).
Proof.
  unfold select_project_ids.
  rewrite <- (existsb_key_false p_name String.eqb String.eqb_eq).
  induction (projects d) as [|p ps IH]; simpl; [tauto|].
  destruct (String.eqb (p_name p) name); simpl; [split; discriminate|exact IH].
Qed.

(** The INSERT of [upsert_project] runs only when the name is free, so
    the UNIQUE constraint cannot fail there. *)
Lemma upsert_project_returns (d : db) (name : string) (b : option string)
    (now : string) :
  fst (upsert_project d name b now) = Returned tt.
Proof.
  unfold upsert_project.
  destruct (fetchone (select_project_ids d name)) eqn:F; [reflexivity|].
  apply fetchone_none, select_project_ids_nil in F.
  apply (existsb_key_false p_name String.eqb String.eqb_eq) in F.
  unfold insert_project_row. rewrite F. reflexivity.
Qed.

Lemma upsert_project_wf (d : db) (name : string) (b : option string)
    (now : string) :
  wf_db d -> wf_db (snd (upsert_project d name b now)).
Proof.
  intros [Hid Hnm Heid Haid Hefk Hafk]. unfold upsert_project.
  destruct (fetchone (select_project_ids d name)) eqn:F.
  - constructor; simpl; auto.
    + rewrite update_base_path_ids. assumption.
    + rewrite update_base_path_names. assumption.
    + intros e pid He Hp. rewrite update_base_path_ids. eauto.
  - apply fetchone_none, select_project_ids_nil in F.
    unfold insert_project_row.
    rewrite (proj2 (existsb_key_false p_name String.eqb String.eqb_eq _ _) F).
    constructor; simpl; auto.
    + rewrite map_app. apply NoDup_snoc; [assumption|apply next_rowid_fresh].
    + rewrite map_app. apply NoDup_snoc; assumption.
    + intros e pid He Hp. rewrite map_app. apply in_or_app. left. eauto.
Qed.

Lemma get_conn_foreign_keys : foreign_keys get_conn = true.
Proof. reflexivity. Qed.

Lemma project_fk_ok_iff (d : db) (project_id : option Z) :
  project_fk_ok get_conn d project_id = true <->
  (forall pid, project_id = Some pid -> In pid (map p_id (projects d))).
Proof.
  unfold project_fk_ok. simpl. destruct project_id as [pid|].
  - rewrite (existsb_key p_id Z.eqb Z.eqb_eq). split.
    + intros H ? [= <-]. assumption.
    + intros H. apply H. reflexivity.
  - split; [discriminate|reflexivity].
Qed.

Lemma entry_fk_ok_iff (d : db) (entry_id : Z) :
  entry_fk_ok get_conn d entry_id = true <->
  In entry_id (map e_id (entries d)).
Proof.
  unfold entry_fk_ok. simpl. apply (existsb_key e_id Z.eqb Z.eqb_eq).
Qed.

Lemma insert_entry_wf (d : db) (ts : datetime) (title : string)
    (project_id : option Z) (work_type tags path : string)
    (duration_hours : option spec_float) (notes_md now : string) :
  wf_db d ->
  wf_db (snd (insert_entry d ts title project_id work_type tags path
                duration_hours notes_md now)).
Proof.
  intros [Hid Hnm Heid Haid Hefk Hafk]. unfold insert_entry.
  destruct (project_fk_ok get_conn d project_id) eqn:F;
    [|destruct (opt_in_int64 project_id); constructor; assumption].
  constructor; simpl; auto.
  - rewrite map_app. apply NoDup_snoc; [assumption|apply next_rowid_fresh].
  - intros e pid He Hp. apply in_app_or in He. destruct He as [He|[<-|[]]].
    + eauto.
    + simpl in Hp. apply (proj1 (project_fk_ok_iff d project_id) F pid Hp).
  - intros a Ha. rewrite map_app. apply in_or_app. left. auto.
Qed.

Lemma insert_attachment_wf (d : db) (entry_id : Z)
    (filename rel_path now : string) :
  wf_db d -> wf_db (snd (insert_attachment d entry_id filename rel_path now)).
Proof.
  intros [Hid Hnm Heid Haid Hefk Hafk]. unfold insert_attachment.
  destruct (entry_fk_ok get_conn d entry_id) eqn:F;
    [|destruct (in_int64 entry_id); constructor; assumption].
  constructor; simpl; auto.
  - rewrite map_app. apply NoDup_snoc; [assumption|apply next_rowid_fresh].
  - intros a Ha. apply in_app_or in Ha. destruct Ha as [Ha|[<-|[]]].
    + auto.
    + simpl. apply entry_fk_ok_iff. assumption.
Qed.

(** Every state the application reaches satisfies the constraints. *)
Lemma wf_run (ops : list write_op) : wf_db (run ops).
Proof.
  unfold run. generalize wf_init_db. generalize init_db.
  induction ops as [|o ops IH]; intros d Hd; simpl; [exact Hd|].
  apply IH. destruct o; simpl.
  - apply upsert_project_wf. assumption.
  - apply insert_entry_wf. assumption.
  - apply insert_attachment_wf. assumption.
Qed.

(** ** Projects: insert-or-update keyed on the name *)

Lemma upsert_project_existing (d : db) (name : string) (b : option string)
    (now : string) :
  In name (map p_name (projects d)) ->
  upsert_project d name b now =
  (Returned tt,
   mk_db (update_base_path b name (projects d)) (projects_seq d)
         (entries d) (entries_seq d) (attachments d) (attachments_seq d)).
Proof.
  intros Hin. unfold upsert_project.
  destruct (fetchone (select_project_ids d name)) eqn:F; [reflexivity|].
  apply fetchone_none, select_project_ids_nil in F. contradiction.
Qed.

Lemma upsert_project_named (d : db) (name : string) (b : option string)
    (now : string) :
  In name (map p_name (projects (snd (upsert_project d name b now)))).
Proof.
  unfold upsert_project.
  destruct (fetchone (select_project_ids d name)) eqn:F; simpl.
  - rewrite update_base_path_names.
    destruct (in_dec string_dec name (map p_name (projects d))) as [H|H];
      [assumption|].
    apply select_project_ids_nil in H. rewrite H in F. discriminate.
  - apply fetchone_none, select_project_ids_nil in F.
    unfold insert_project_row.
    rewrite (proj2 (existsb_key_false p_name String.eqb String.eqb_eq _ _) F).
    simpl. rewrite map_app. apply in_or_app. right. left. reflexivity.
Qed.

Lemma filter_update_base_path (b : option string) (name : string)
    (ps : list project) :
  filter (fun q => String.eqb (p_name q) name) (update_base_path b name ps) =
  map (set_base_path b) (filter (fun q => String.eqb (p_name q) name) ps).
Proof.
  induction ps as [|p ps IH]; simpl; [reflexivity|].
  destruct (String.eqb (p_name p) name) eqn:E; simpl; rewrite E, IH; reflexivity.
Qed.

Lemma Forall2_map_in {A B : Type} (R : A -> B -> Prop) (g : A -> B)
    (l : list A) :
  (forall x, In x l -> R x (g x)) -> Forall2 R l (map g l).
Proof.
  induction l as [|x l IH]; simpl; intros H; constructor; auto.
Qed.

(** C3.  Whatever the base paths [a] and [b], [upsert_project X a]
    followed by [upsert_project X b] leaves exactly one project row named
    [X], and its base path is [b]. *)
Theorem upsert_project_twice_last_write_wins
    (d : db) (X : string) (a b : option string) (now1 now2 : string) :
  wf_db d ->
  let r1 := upsert_project d X a now1 in
  let r2 := upsert_project (snd r1) X b now2 in
  fst r1 = Returned tt /\ fst r2 = Returned tt /\
  exists p,
    filter (fun q => String.eqb (p_name q) X) (projects (snd r2)) = [p] /\
    p_name p = X /\ p_base_path p = b.
Proof.
  intros Hwf r1 r2.
  assert (Hwf1 : wf_db (snd r1)) by (apply upsert_project_wf; assumption).
  assert (Hin : In X (map p_name (projects (snd r1))))
    by apply upsert_project_named.
  split; [apply upsert_project_returns|].
  split; [apply upsert_project_returns|].
  subst r2. rewrite (upsert_project_existing _ _ _ _ Hin). simpl.
  rewrite filter_update_base_path.
  apply in_map_iff in Hin. destruct Hin as (p1 & Hn & Hp1). subst X.
  rewrite (filter_key_unique p_name String.eqb String.eqb_eq p1 _
             (wf_project_names _ Hwf1) Hp1).
  exists (set_base_path b p1). simpl. auto.
Qed.

Lemma upsert_project_twice_last_write_wins_witness :
  let r1 := upsert_project init_db "X" (Some "/a") "2024-01-01T00:00:00" in
  let r2 := upsert_project (snd r1) "X" (Some "/b") "2024-01-02T00:00:00" in
  fst r1 = Returned tt /\ fst r2 = Returned tt /\
  exists p,
    filter (fun q => String.eqb (p_name q) "X") (projects (snd r2)) = [p] /\
    p_name p = "X" /\ p_base_path p = Some "/b".
Proof.
  exact (upsert_project_twice_last_write_wins init_db "X" (Some "/a")
           (Some "/b") "2024-01-01T00:00:00" "2024-01-02T00:00:00"
           wf_init_db).
Defined.

(** C10.  On the name of an existing project row, [upsert_project]
    changes nothing but that row's base path: every project row keeps its
    id, name and creation time, every other project row is unchanged, and
    so are the other two tables. *)
Theorem upsert_project_existing_frame
    (d : db) (p : project) (b : option string) (now : string) :
  wf_db d -> In p (projects d) ->
  let r := upsert_project d (p_name p) b now in
  fst r = Returned tt /\
  Forall2 (fun q q' =>
             p_id q' = p_id q /\ p_name q' = p_name q /\
             p_created_at q' = p_created_at q /\
             (q = p -> p_base_path q' = b) /\
             (q <> p -> q' = q))
          (projects d) (projects (snd r)) /\
  projects_seq (snd r) = projects_seq d /\
  entries (snd r) = entries d /\ entries_seq (snd r) = entries_seq d /\
  attachments (snd r) = attachments d /\
  attachments_seq (snd r) = attachments_seq d.
Proof.
  intros Hwf Hp r. subst r.
  rewrite (upsert_project_existing d (p_name p) b now (in_map p_name _ _ Hp)).
  simpl. repeat split; try reflexivity.
  unfold update_base_path. apply Forall2_map_in. intros q Hq.
  destruct (String.eqb (p_name q) (p_name p)) eqn:E; simpl.
  - repeat split; try reflexivity. intros Hne. exfalso. apply Hne.
    pose proof (filter_key_unique p_name String.eqb String.eqb_eq p _
                  (wf_project_names _ Hwf) Hp) as Hf.
    assert (Hqf : In q (filter (fun q0 => String.eqb (p_name q0) (p_name p))
                          (projects d)))
      by (apply filter_In; auto).
    rewrite Hf in Hqf. destruct Hqf as [<-|[]]. reflexivity.
  - repeat split; try reflexivity. intros ->.
    rewrite String.eqb_refl in E. discriminate.
Qed.

Lemma upsert_project_existing_frame_witness :
  let d := snd (upsert_project
                  (snd (upsert_project init_db "Atlas" (Some "/home/u/atlas")
                          "2024-01-01T00:00:00"))
                  "Borealis" None "2024-01-02T00:00:00") in
  let p := mk_project 1 "Atlas" (Some "/home/u/atlas") "2024-01-01T00:00:00" in
  let r := upsert_project d "Atlas" (Some "/srv/atlas") "2024-01-03T00:00:00" in
  projects (snd r) =
    [mk_project 1 "Atlas" (Some "/srv/atlas") "2024-01-01T00:00:00";
     mk_project 2 "Borealis" None "2024-01-02T00:00:00"] /\
  Forall2 (fun q q' =>
             p_id q' = p_id q /\ p_name q' = p_name q /\
             p_created_at q' = p_created_at q /\
             (q = p -> p_base_path q' = Some "/srv/atlas") /\
             (q <> p -> q' = q))
          (projects d) (projects (snd r)).
Proof.
  intros d p r. split; [reflexivity|].
  refine (proj1 (proj2 (upsert_project_existing_frame d p (Some "/srv/atlas")
                          "2024-01-03T00:00:00" _ _))).
  - unfold d. apply upsert_project_wf, upsert_project_wf, wf_init_db.
  - simpl. left. reflexivity.
Defined.

(** ** Attachments: the reference to an entry is enforced *)

(** An [entry_id] of 2^63 identifies no entry, and the call raises
    [OverflowError], which is no constraint error. *)
Lemma insert_attachment_overflow :
  ~ In (2 ^ 63) (map e_id (entries one_entry_db)) /\
  insert_attachment_call (mk_store one_entry_db false) (2 ^ 63) "a.txt"
    "attachments/entry_1/a.txt" "2024-03-01T10:00:00" =
  (Raised Overflow_error, mk_store one_entry_db false) /\
  Overflow_error <> Integrity_error FOREIGN_KEY_constraint_failed.
Proof.
  split; [|split; [reflexivity|discriminate]].
  simpl. intros [H|[]]. discriminate H.
Qed.

(** C9, as the code has it.  Every connection enforces foreign keys.
    With no connection left open on the file, [insert_attachment] on an
    [entry_id] of 64 bits that identifies no entry raises the constraint
    error and writes nothing; the connection of that call stays open and
    holds the write lock, and while it does a further insert raises
    [database is locked] and writes nothing.  An [entry_id] beyond 64
    bits raises [OverflowError] and writes nothing.  On an existing
    [entry_id], with no connection left open, the insert appends the row
    under a fresh id. *)
Theorem insert_attachment_foreign_key
    (s : store) (entry_id : Z) (filename rel_path now : string) :
  foreign_keys get_conn = true /\
  (st_locked s = false -> ~ In entry_id (map e_id (entries (st_db s))) ->
   in_int64 entry_id = true ->
   insert_attachment_call s entry_id filename rel_path now =
   (Raised (Integrity_error FOREIGN_KEY_constraint_failed),
    mk_store (st_db s) true)) /\
  (~ In entry_id (map e_id (entries (st_db s))) ->
   in_int64 entry_id = false ->
   fst (insert_attachment_call s entry_id filename rel_path now) =
   Raised Overflow_error /\
   st_db (snd (insert_attachment_call s entry_id filename rel_path now)) =
   st_db s) /\
  (st_locked s = true -> in_int64 entry_id = true ->
   insert_attachment_call s entry_id filename rel_path now =
   (Raised Database_is_locked, s)) /\
  (st_locked s = false -> In entry_id (map e_id (entries (st_db s))) ->
   exists id,
     ~ In id (map a_id (attachments (st_db s))) /\
     insert_attachment_call s entry_id filename rel_path now =
     (Returned tt,
      mk_store
        (mk_db (projects (st_db s)) (projects_seq (st_db s))
               (entries (st_db s)) (entries_seq (st_db s))
               ((attachments (st_db s) ++
                 [mk_attachment id entry_id filename rel_path now])%list)
               id)
        false)).
Proof.
  destruct s as [d l]. simpl.
  split; [reflexivity|]. unfold insert_attachment_call, insert_attachment.
  simpl. split; [|split; [|split]].
  - intros -> H R. rewrite R. simpl.
    destruct (entry_fk_ok get_conn d entry_id) eqn:F; [|reflexivity].
    apply entry_fk_ok_iff in F. contradiction.
  - intros H R. rewrite R, andb_false_r.
    destruct (entry_fk_ok get_conn d entry_id) eqn:F.
    + apply entry_fk_ok_iff in F. contradiction.
    + split; reflexivity.
  - intros -> ->. reflexivity.
  - intros -> H. simpl. rewrite (proj2 (entry_fk_ok_iff d entry_id) H).
    eexists. split; [apply next_rowid_fresh|reflexivity].
Qed.

Lemma insert_attachment_foreign_key_witness :
  insert_attachment_call (mk_store one_entry_db false) 7 "a.txt"
    "attachments/entry_7/a.txt" "2024-03-01T10:00:00" =
  (Raised (Integrity_error FOREIGN_KEY_constraint_failed),
   mk_store one_entry_db true) /\
  insert_attachment_call (mk_store one_entry_db true) 1 "a.txt"
    "attachments/entry_1/a.txt" "2024-03-01T10:00:01" =
  (Raised Database_is_locked, mk_store one_entry_db true) /\
  exists id,
    ~ In id (map a_id (attachments one_entry_db)) /\
    insert_attachment_call (collect (mk_store one_entry_db true)) 1 "a.txt"
      "attachments/entry_1/a.txt" "2024-03-01T10:00:02" =
    (Returned tt,
     mk_store
       (mk_db (projects one_entry_db) (projects_seq one_entry_db)
              (entries one_entry_db) (entries_seq one_entry_db)
              ((attachments one_entry_db ++
                [mk_attachment id 1 "a.txt" "attachments/entry_1/a.txt"
                   "2024-03-01T10:00:02"])%list)
              id)
       false).
Proof.
  split; [|split].
  - apply (proj1 (proj2 (insert_attachment_foreign_key
                           (mk_store one_entry_db false) 7 "a.txt"
                           "attachments/entry_7/a.txt" "2024-03-01T10:00:00")));
      [reflexivity| |reflexivity].
    simpl. intros [H|[]]. discriminate H.
  - apply (proj1 (proj2 (proj2 (proj2 (insert_attachment_foreign_key
                           (mk_store one_entry_db true) 1 "a.txt"
                           "attachments/entry_1/a.txt" "2024-03-01T10:00:01")))));
      reflexivity.
  - apply (proj2 (proj2 (proj2 (proj2 (insert_attachment_foreign_key
                           (collect (mk_store one_entry_db true)) 1 "a.txt"
                           "attachments/entry_1/a.txt" "2024-03-01T10:00:02")))));
      [reflexivity|].
    simpl. left. reflexivity.
Defined.

(** ** Durations: where zero becomes NULL *)

(** [insert_entry] called with a duration of zero stores the zero, not
    NULL. *)
Lemma insert_entry_stores_zero_duration :
  let r := insert_entry init_db sample_time "x" None "Other" "" ""
             (Some (S754_zero false)) "" "2024-03-01T09:31:00" in
  fst r = Returned 1 /\
  map e_duration_hours (entries (snd r)) = [Some (S754_zero false)] /\
  map e_duration_hours (entries (snd r)) <> [None].
Proof. simpl. repeat split. discriminate. Qed.

(** C5, as the code has it.  The form handler [quick_capture], not
    [insert_entry], merges zero with absent: an entry saved from a form
    whose duration is zero is stored with a NULL duration.  [insert_entry]
    itself stores an absent duration as NULL, a zero of either sign as
    zero, and any other number as given. *)
Theorem quick_capture_zero_duration_is_null
    (d : db) (active_project_id : option Z) (f : capture_form) (now : string) :
  truthy_str (strip (f_title f)) = true ->
  project_fk_ok get_conn d active_project_id = true ->
  (exists id e,
     quick_capture d active_project_id f now =
     Some (Returned id,
           mk_db (projects d) (projects_seq d) ((entries d ++ [e])%list) id
                 (attachments d) (attachments_seq d)) /\
     e_id e = id /\ e_title e = strip (f_title f) /\
     (forall sgn, f_duration f = S754_zero sgn -> e_duration_hours e = None) /\
     (truthy_float (f_duration f) = true ->
      e_duration_hours e = bind_real (Some (f_duration f)))) /\
  (forall ts title work_type tags path notes_md duration_hours,
   exists id e,
     insert_entry d ts title active_project_id work_type tags path
       duration_hours notes_md now =
     (Returned id,
      mk_db (projects d) (projects_seq d) ((entries d ++ [e])%list) id
            (attachments d) (attachments_seq d)) /\
     (duration_hours = None -> e_duration_hours e = None) /\
     (forall sgn, duration_hours = Some (S754_zero sgn) ->
                  e_duration_hours e = Some (S754_zero false)) /\
     (forall x, duration_hours = Some x -> x <> S754_nan ->
                x <> S754_zero true -> e_duration_hours e = Some x)).
Proof.
  intros Ht Hfk. split.
  - unfold quick_capture. rewrite Ht. simpl. unfold insert_entry. rewrite Hfk.
    do 2 eexists. split; [reflexivity|]. simpl. repeat split.
    + intros sgn ->. reflexivity.
    + intros ->. reflexivity.
  - intros. unfold insert_entry. rewrite Hfk.
    do 2 eexists. split; [reflexivity|]. simpl. split; [|split].
    + intros ->. reflexivity.
    + intros sgn ->. reflexivity.
    + intros x -> Hx Hz. destruct x as [[]| | |]; try reflexivity;
        contradiction.
Qed.

Lemma quick_capture_zero_duration_is_null_witness :
  exists id e,
    quick_capture init_db None zero_duration_form "2024-03-01T09:31:00" =
    Some (Returned id, mk_db [] 0 [e] id [] 0) /\
    e_title e = "Calibrate" /\ e_duration_hours e = None.
Proof.
  destruct (proj1 (quick_capture_zero_duration_is_null init_db None
                     zero_duration_form "2024-03-01T09:31:00"
                     eq_refl eq_refl))
    as (id & e & Hq & _ & Ht & Hz & _).
  exists id, e. split; [exact Hq|]. split; [exact Ht|].
  exact (Hz false eq_refl).
Defined.

(** ** Sorting *)

Section SortingFacts.
Context {A : Type} (leb : A -> A -> bool).

Lemma insert_by_perm (x : A) (l : list A) :
  Permutation (x :: l) (insert_by leb x l).
Proof.
  induction l as [|y l IH]; simpl; [reflexivity|].
  destruct (leb x y); [reflexivity|].
  rewrite perm_swap. constructor. exact IH.
Qed.

Lemma sort_by_perm (l : list A) : Permutation l (sort_by leb l).
Proof.
  induction l as [|x l IH]; simpl; [constructor|].
  rewrite <- insert_by_perm. constructor. exact IH.
Qed.

Hypothesis leb_total : forall a b, leb a b = true \/ leb b a = true.
Hypothesis leb_trans :
  forall a b c, leb a b = true -> leb b c = true -> leb a c = true.

Lemma insert_by_sorted (x : A) (l : list A) :
  StronglySorted (fun a b => leb a b = true) l ->
  StronglySorted (fun a b => leb a b = true) (insert_by leb x l).
Proof.
  induction 1 as [|y l Hs IH Hy]; simpl.
  - repeat constructor.
  - destruct (leb x y) eqn:E.
    + constructor; [constructor; assumption|].
      constructor; [exact E|].
      eapply Forall_impl; [|exact Hy]. intros z Hz. simpl in *. eauto.
    + constructor; [exact IH|].
      eapply Permutation_Forall; [apply insert_by_perm|].
      constructor; [|exact Hy].
      destruct (leb_total x y) as [H|H]; [congruence|exact H].
Qed.

Lemma sort_by_sorted (l : list A) :
  StronglySorted (fun a b => leb a b = true) (sort_by leb l).
Proof.
  induction l as [|x l IH]; simpl; [constructor|].
  apply insert_by_sorted. exact IH.
Qed.
End SortingFacts.


(** ** The order on text *)

Lemma ascii_compare_refl (c : ascii) : Ascii.compare c c = Eq.
Proof. unfold Ascii.compare. apply N.compare_refl. Qed.

Lemma string_compare_refl (s : string) : String.compare s s = Eq.
Proof.
  induction s as [|c s IH]; simpl; [reflexivity|].
  rewrite ascii_compare_refl. exact IH.
Qed.

Lemma string_compare_lt_trans (a b c : string) :
  String.compare a b = Lt -> String.compare b c = Lt ->
  String.compare a c = Lt.
Proof.
  revert b c. induction a as [|x a IH]; intros [|y b] [|z c]; simpl;
    try congruence.
  unfold Ascii.compare.
  destruct (N.compare_spec (N_of_ascii x) (N_of_ascii y)) as [E1|L1|G1];
    destruct (N.compare_spec (N_of_ascii y) (N_of_ascii z)) as [E2|L2|G2];
    try congruence; intros H1 H2.
  - rewrite E1, E2, N.compare_refl. eauto.
  - rewrite E1. apply N.compare_lt_iff in L2. rewrite L2. reflexivity.
  - rewrite <- E2. apply N.compare_lt_iff in L1. rewrite L1. reflexivity.
  - assert (L : (N_of_ascii x < N_of_ascii z)%N) by lia.
    apply N.compare_lt_iff in L. rewrite L. reflexivity.
Qed.

Lemma string_leb_trans (a b c : string) :
  String.leb a b = true -> String.leb b c = true -> String.leb a c = true.
Proof.
  unfold String.leb.
  destruct (String.compare a b) eqn:E1; try discriminate;
    destruct (String.compare b c) eqn:E2; try discriminate; intros _ _.
  - apply String.compare_eq_iff in E1, E2. subst.
    rewrite string_compare_refl. reflexivity.
  - apply String.compare_eq_iff in E1. subst. rewrite E2. reflexivity.
  - apply String.compare_eq_iff in E2. subst. rewrite E1. reflexivity.
  - rewrite (string_compare_lt_trans a b c E1 E2). reflexivity.
Qed.





(** ** ISO text: the order of the text is the order of time *)

Lemma string_app_assoc (a b c : string) : (a ++ b) ++ c = a ++ b ++ c.
Proof. induction a as [|x a IH]; simpl; [reflexivity|]. rewrite IH. reflexivity. Qed.

Lemma string_length_app (a b : string) :
  String.length (a ++ b) = (String.length a + String.length b)%nat.
Proof. induction a as [|x a IH]; simpl; [reflexivity|]. rewrite IH. reflexivity. Qed.

Lemma string_compare_app (s1 s2 t1 t2 : string) :
  String.length s1 = String.length s2 ->
  String.compare (s1 ++ t1) (s2 ++ t2) =
  match String.compare s1 s2 with
  | Eq => String.compare t1 t2
  | c => c
  end.
Proof.
  revert s2. induction s1 as [|x s1 IH]; intros [|y s2]; simpl;
    try discriminate; [reflexivity|].
  intros [= H]. destruct (Ascii.compare x y); auto.
Qed.

Lemma ascii_compare_code (x y : ascii) :
  Ascii.compare x y = (code x ?= code y).
Proof. unfold Ascii.compare, code. symmetry. apply N2Z.inj_compare. Qed.

Lemma code_digit (n : Z) : code (digit n) = 48 + n mod 10.
Proof.
  unfold code, digit. pose proof (Z.mod_pos_bound n 10 ltac:(lia)) as B.
  rewrite N_ascii_embedding by lia. apply Z2N.id. lia.
Qed.

Lemma digit_compare (a b : Z) :
  Ascii.compare (digit a) (digit b) = (a mod 10 ?= b mod 10).
Proof.
  rewrite ascii_compare_code, !code_digit. apply Z.add_compare_mono_l.
Qed.

Lemma zpad_length (w : nat) (n : Z) : String.length (zpad w n) = w.
Proof.
  revert n. induction w as [|w IH]; intros n; simpl; [reflexivity|].
  rewrite string_length_app, IH. simpl. lia.
Qed.

Lemma lex_div_mod (a b : Z) :
  match a / 10 ?= b / 10 with
  | Eq => a mod 10 ?= b mod 10
  | c => c
  end = (a ?= b).
Proof.
  pose proof (Z.div_mod a 10 ltac:(lia)) as Ha.
  pose proof (Z.div_mod b 10 ltac:(lia)) as Hb.
  pose proof (Z.mod_pos_bound a 10 ltac:(lia)) as Ba.
  pose proof (Z.mod_pos_bound b 10 ltac:(lia)) as Bb.
  symmetry.
  destruct (Z.compare_spec (a / 10) (b / 10)) as [E|L|G].
  - destruct (Z.compare_spec (a mod 10) (b mod 10)) as [E'|L'|G'].
    + apply Z.compare_eq_iff. lia.
    + apply Z.compare_lt_iff. lia.
    + apply Z.compare_gt_iff. lia.
  - apply Z.compare_lt_iff. lia.
  - apply Z.compare_gt_iff. lia.
Qed.

(** Zero-padded decimals of one width compare as their numbers. *)
Lemma zpad_compare (w : nat) (a b : Z) :
  0 <= a < 10 ^ Z.of_nat w -> 0 <= b < 10 ^ Z.of_nat w ->
  String.compare (zpad w a) (zpad w b) = (a ?= b).
Proof.
  revert a b. induction w as [|w IH]; intros a b Ha Hb.
  - simpl in *. symmetry. apply Z.compare_eq_iff. lia.
  - rewrite Nat2Z.inj_succ, Z.pow_succ_r in Ha, Hb by lia.
    simpl. rewrite string_compare_app by (rewrite !zpad_length; reflexivity).
    rewrite IH.
    + simpl. rewrite digit_compare. rewrite <- (lex_div_mod a b).
      destruct (a / 10 ?= b / 10); try reflexivity.
      destruct (a mod 10 ?= b mod 10); reflexivity.
    + split; [apply Z.div_pos; lia|apply Z.div_lt_upper_bound; lia].
    + split; [apply Z.div_pos; lia|apply Z.div_lt_upper_bound; lia].
Qed.

Lemma zpad_field_compare (w : nat) (a b : Z) (r1 r2 : string) :
  0 <= a < 10 ^ Z.of_nat w -> 0 <= b < 10 ^ Z.of_nat w ->
  String.compare (zpad w a ++ r1) (zpad w b ++ r2) =
  match a ?= b with
  | Eq => String.compare r1 r2
  | c => c
  end.
Proof.
  intros Ha Hb.
  rewrite string_compare_app by (rewrite !zpad_length; reflexivity).
  rewrite zpad_compare by assumption. reflexivity.
Qed.

Lemma sep_compare (c : ascii) (r1 r2 : string) :
  String.compare (String c r1) (String c r2) = String.compare r1 r2.
Proof. simpl. rewrite ascii_compare_refl. reflexivity. Qed.

Lemma days_in_month_le (y m : Z) : 28 <= days_in_month y m <= 31.
Proof.
  unfold days_in_month.
  destruct (m =? 2); [destruct (is_leap y); lia|].
  destruct ((m =? 4) || (m =? 6) || (m =? 9) || (m =? 11)); lia.
Qed.

Lemma valid_date_bounds (d : date) :
  valid_date d = true ->
  1 <= year d <= 9999 /\ 1 <= month d <= 12 /\
  1 <= day d <= days_in_month (year d) (month d).
Proof.
  unfold valid_date. rewrite !andb_true_iff, !Z.leb_le. lia.
Qed.

Lemma valid_datetime_bounds (t : datetime) :
  valid_datetime t = true ->
  valid_date (dt_date t) = true /\
  0 <= hour t <= 23 /\ 0 <= minute t <= 59 /\ 0 <= second t <= 59 /\
  0 <= microsecond t <= 999999.
Proof.
  unfold valid_datetime. rewrite !andb_true_iff, !Z.leb_le. intuition lia.
Qed.

Lemma date_isoformat_field_compare (a b : date) (r1 r2 : string) :
  valid_date a = true -> valid_date b = true ->
  String.compare (date_isoformat a ++ r1) (date_isoformat b ++ r2) =
  match date_compare a b with
  | Eq => String.compare r1 r2
  | c => c
  end.
Proof.
  intros Ha Hb.
  apply valid_date_bounds in Ha, Hb.
  pose proof (days_in_month_le (year a) (month a)).
  pose proof (days_in_month_le (year b) (month b)).
  unfold date_isoformat, date_compare. rewrite !string_app_assoc.
  rewrite (zpad_field_compare 4) by (change (10 ^ Z.of_nat 4) with 10000; lia).
  destruct (year a ?= year b); try reflexivity.
  change ("-" ++ ?x) with (String "-" x). rewrite sep_compare.
  rewrite (zpad_field_compare 2) by (change (10 ^ Z.of_nat 2) with 100; lia).
  destruct (month a ?= month b); try reflexivity.
  change ("-" ++ ?x) with (String "-" x). rewrite sep_compare.
  rewrite (zpad_field_compare 2) by (change (10 ^ Z.of_nat 2) with 100; lia).
  reflexivity.
Qed.

Lemma string_app_nil_r (s : string) : s ++ "" = s.
Proof. induction s as [|c s IH]; simpl; [reflexivity|]. rewrite IH. reflexivity. Qed.

(** [date.isoformat] is monotone: the text order is the calendar order. *)
Lemma date_isoformat_compare (a b : date) :
  valid_date a = true -> valid_date b = true ->
  String.compare (date_isoformat a) (date_isoformat b) = date_compare a b.
Proof.
  intros Ha Hb.
  pose proof (date_isoformat_field_compare a b "" "" Ha Hb) as H.
  rewrite !string_app_nil_r in H. rewrite H. simpl.
  destruct (date_compare a b); reflexivity.
Qed.



(** ** ISO text: reading back what was printed *)

Lemma digit_val_digit (n : Z) : digit_val (digit n) = Some (n mod 10).
Proof.
  unfold digit_val. rewrite code_digit.
  pose proof (Z.mod_pos_bound n 10 ltac:(lia)) as B.
  replace ((48 <=? 48 + n mod 10) && (48 + n mod 10 <=? 57)) with true
    by (symmetry; apply andb_true_iff; rewrite !Z.leb_le; lia).
  f_equal. lia.
Qed.

Lemma read_digits_zpad (w : nat) :
  forall (n acc : Z) (rest : string) (k : nat),
  0 <= n < 10 ^ Z.of_nat w ->
  read_digits (w + k) acc (zpad w n ++ rest) =
  read_digits k (acc * 10 ^ Z.of_nat w + n) rest.
Proof.
  induction w as [|w IH]; intros n acc rest k Hn.
  - simpl in *. f_equal. lia.
  - rewrite Nat2Z.inj_succ, Z.pow_succ_r in * by lia.
    simpl zpad. rewrite string_app_assoc.
    replace (S w + k)%nat with (w + S k)%nat by lia.
    rewrite IH
      by (split; [apply Z.div_pos; lia|apply Z.div_lt_upper_bound; lia]).
    cbn [read_digits append]. rewrite digit_val_digit. f_equal.
    pose proof (Z.div_mod n 10 ltac:(lia)) as D.
    set (p := 10 ^ Z.of_nat w) in *. set (q := n / 10) in *.
    set (r := n mod 10) in *. rewrite D. ring.
Qed.

Lemma read_zpad (w : nat) (n : Z) (rest : string) :
  0 <= n < 10 ^ Z.of_nat w ->
  read_digits w 0 (zpad w n ++ rest) = Some (n, rest).
Proof.
  intros Hn. pose proof (read_digits_zpad w n 0 rest 0 Hn) as H.
  rewrite Nat.add_0_r in H. rewrite H. reflexivity.
Qed.

Lemma all_digits_zpad (w : nat) (n : Z) : all_digits (zpad w n) = true.
Proof.
  revert n. induction w as [|w IH]; intros n; simpl; [reflexivity|].
  generalize (IH (n / 10)). generalize (zpad w (n / 10)).
  induction s as [|c s IHs]; simpl.
  - rewrite digit_val_digit. reflexivity.
  - destruct (digit_val c); [exact IHs|discriminate].
Qed.

Lemma truthy_zpad (w : nat) (n : Z) : truthy_str (zpad (S w) n) = true.
Proof. simpl. destruct (zpad w (n / 10)); reflexivity. Qed.

Lemma in_range_iff (lo hi v : Z) : in_range lo hi v = true <-> lo <= v <= hi.
Proof. unfold in_range. rewrite andb_true_iff, !Z.leb_le. tauto. Qed.

Lemma seconds_ok_isoformat (s us : Z) :
  0 <= s <= 59 -> 0 <= us <= 999999 ->
  seconds_ok (":" ++ zpad 2 s ++ fraction us) = true.
Proof.
  intros Hs Hus. change (":" ++ ?x) with (String ":" x).
  unfold seconds_ok, expect. change (Ascii.eqb ":" ":") with true. cbv iota.
  rewrite read_zpad by (change (10 ^ Z.of_nat 2) with 100; lia).
  rewrite (proj2 (in_range_iff 0 59 s)) by lia. rewrite andb_true_l.
  unfold fraction. destruct (us =? 0); [reflexivity|].
  change ("." ++ ?x) with (String "." x). cbv iota.
  change (Ascii.eqb "." ".") with true.
  rewrite truthy_zpad, all_digits_zpad. reflexivity.
Qed.

Lemma time_ok_isoformat (t : datetime) :
  valid_datetime t = true ->
  time_ok ("T" ++ zpad 2 (hour t) ++ ":" ++ zpad 2 (minute t) ++ ":" ++
           zpad 2 (second t) ++ fraction (microsecond t)) = true.
Proof.
  intros Ht. apply valid_datetime_bounds in Ht.
  destruct Ht as (_ & Hh & Hm & Hs & Hus).
  change ("T" ++ ?x) with (String "T" x). unfold time_ok.
  change (Ascii.eqb "T" "T") with true. rewrite orb_true_l, andb_true_l.
  rewrite read_zpad by (change (10 ^ Z.of_nat 2) with 100; lia).
  rewrite (proj2 (in_range_iff 0 23 (hour t))) by lia. rewrite andb_true_l.
  change (":" ++ zpad 2 (minute t) ++ ?x)
    with (String ":" (zpad 2 (minute t) ++ x)).
  unfold expect. change (Ascii.eqb ":" ":") with true. cbv iota.
  rewrite read_zpad by (change (10 ^ Z.of_nat 2) with 100; lia).
  rewrite (proj2 (in_range_iff 0 59 (minute t))) by lia. rewrite andb_true_l.
  apply seconds_ok_isoformat; assumption.
Qed.

Lemma parse_date_isoformat_rest (d : date) (rest : string) :
  valid_date d = true -> time_ok rest = true ->
  parse_iso_date (date_isoformat d ++ rest) = Some d.
Proof.
  intros Hd Hr. apply valid_date_bounds in Hd.
  pose proof (days_in_month_le (year d) (month d)).
  unfold parse_iso_date, date_isoformat. rewrite !string_app_assoc.
  rewrite read_zpad by (change (10 ^ Z.of_nat 4) with 10000; lia).
  change ("-" ++ zpad 2 (month d) ++ ?x)
    with (String "-" (zpad 2 (month d) ++ x)).
  unfold expect at 1. change (Ascii.eqb "-" "-") with true. cbv iota.
  rewrite read_zpad by (change (10 ^ Z.of_nat 2) with 100; lia).
  change ("-" ++ zpad 2 (day d) ++ ?x)
    with (String "-" (zpad 2 (day d) ++ x)).
  unfold expect. change (Ascii.eqb "-" "-") with true. cbv iota.
  rewrite read_zpad by (change (10 ^ Z.of_nat 2) with 100; lia).
  rewrite (proj2 (in_range_iff 1 12 (month d))) by lia.
  rewrite (proj2 (in_range_iff 1 _ (day d))) by lia.
  rewrite Hr. destruct d; reflexivity.
Qed.

(** Reading the text of a date gives the date back. *)
Lemma parse_date_isoformat (d : date) :
  valid_date d = true -> parse_iso_date (date_isoformat d) = Some d.
Proof.
  intros Hd. rewrite <- (string_app_nil_r (date_isoformat d)).
  apply parse_date_isoformat_rest; [assumption|reflexivity].
Qed.

(** Reading the text of a naive timestamp gives its calendar date. *)
Lemma parse_isoformat (t : datetime) :
  valid_datetime t = true -> parse_iso_date (isoformat t) = Some (dt_date t).
Proof.
  intros Ht. unfold isoformat. apply parse_date_isoformat_rest.
  - apply valid_datetime_bounds in Ht. tauto.
  - apply time_ok_isoformat. assumption.
Qed.

(** ** The join: one row per entry *)

Lemma find_filter {A : Type} (f : A -> bool) (l : list A) :
  find f l = match filter f l with [] => None | x :: _ => Some x end.
Proof.
  induction l as [|x l IH]; simpl; [reflexivity|].
  destruct (f x); [reflexivity|exact IH].
Qed.

Lemma filter_false {A : Type} (l : list A) : filter (fun _ => false) l = [].
Proof. induction l; simpl; auto. Qed.

Lemma join_rows_unique (ps : list project) (e : entry) :
  NoDup (map p_id ps) ->
  match filter (join_on e) ps with
  | [] => [(e, None)]
  | ms => map (fun p => (e, Some p)) ms
  end = [(e, project_of ps e)].
Proof.
  intros Hnd. unfold project_of, join_on. destruct (e_project_id e) as [pid|].
  - rewrite find_filter.
    destruct (in_dec Z.eq_dec pid (map p_id ps)) as [Hin|Hout].
    + apply in_map_iff in Hin. destruct Hin as (p & <- & Hp).
      rewrite (filter_key_unique p_id Z.eqb Z.eqb_eq p ps Hnd Hp). reflexivity.
    + rewrite (filter_key_absent p_id Z.eqb Z.eqb_eq pid ps Hout). reflexivity.
  - rewrite filter_false. reflexivity.
Qed.

Lemma left_join_unique (es : list entry) (ps : list project) :
  NoDup (map p_id ps) ->
  left_join es ps = map (fun e => (e, project_of ps e)) es.
Proof.
  intros Hnd. unfold left_join.
  rewrite (flat_map_ext _ (fun e => [(e, project_of ps e)]))
    by (intros e; apply join_rows_unique; assumption).
  induction es as [|e es IH]; simpl; [reflexivity|].
  rewrite IH. reflexivity.
Qed.

Lemma filter_map_fst {A B : Type} (P : A -> bool) (g : A -> B) (l : list A) :
  filter (fun x => P (fst x)) (map (fun a => (a, g a)) l) =
  map (fun a => (a, g a)) (filter P l).
Proof.
  induction l as [|a l IH]; simpl; [reflexivity|].
  destruct (P a); simpl; rewrite IH; reflexivity.
Qed.

(** With unique project ids the query is: keep the entries on which the
    WHERE clause is true, give each its row, sort. *)
Lemma query_entries_rows (d : db) (f : query_filter) :
  NoDup (map p_id (projects d)) ->
  query_entries d f =
  sort_by ts_desc
    (map (row_of (projects d))
       (filter (eval_where (conditions f)) (entries d))).
Proof.
  intros Hnd. unfold query_entries.
  rewrite (left_join_unique _ _ Hnd), filter_map_fst, map_map. reflexivity.
Qed.

Lemma in_query_entries (d : db) (f : query_filter) (r : row) :
  NoDup (map p_id (projects d)) ->
  In r (query_entries d f) <->
  exists e, In e (entries d) /\ eval_where (conditions f) e = true /\
            r = row_of (projects d) e.
Proof.
  intros Hnd. rewrite (query_entries_rows d f Hnd). split.
  - intros Hr.
    apply (Permutation_in _ (Permutation_sym (sort_by_perm ts_desc _))) in Hr.
    apply in_map_iff in Hr. destruct Hr as (e & <- & He).
    apply filter_In in He. exists e. tauto.
  - intros (e & He & Hw & ->).
    apply (Permutation_in _ (sort_by_perm ts_desc _)).
    apply in_map. apply filter_In. auto.
Qed.

(** ** An empty list of project ids is no filter *)

(** With [project_ids=[]] the one entry of [one_entry_db] is returned:
    the result is not empty. *)
Lemma query_entries_empty_project_ids_returns_rows :
  query_entries one_entry_db (mk_filter None None (Some []) None None) =
  [mk_row 1 "2024-03-01T09:30:00" "x" "" (Some "Other") (Some "") (Some "")
     None (Some "")] /\
  query_entries one_entry_db (mk_filter None None (Some []) None None) <> [].
Proof. split; [reflexivity|discriminate]. Qed.

(** C1, as the code has it.  [if project_ids:] is false for the empty
    list as it is for [None]: an explicitly empty list gives the rows the
    omitted filter gives, and with no filter at all these are all rows,
    one per entry. *)
Theorem query_entries_empty_project_ids_is_no_filter
    (d : db) (s e : option date) (t g : option string) :
  wf_db d ->
  query_entries d (mk_filter s e (Some []) t g) =
  query_entries d (mk_filter s e None t g) /\
  query_entries d (mk_filter None None (Some []) None None) =
  query_entries d no_filter /\
  Permutation (map (row_of (projects d)) (entries d))
              (query_entries d no_filter).
Proof.
  intros Hwf. split; [reflexivity|]. split; [reflexivity|].
  rewrite (query_entries_rows d no_filter (wf_project_ids d Hwf)).
  change (conditions no_filter) with (@nil condition).
  rewrite <- sort_by_perm.
  replace (filter (eval_where []) (entries d)) with (entries d);
    [reflexivity|].
  induction (entries d) as [|x l IH]; simpl; congruence.
Qed.

Lemma query_entries_empty_project_ids_is_no_filter_witness :
  query_entries one_entry_db (mk_filter None None (Some []) None None) =
  query_entries one_entry_db no_filter /\
  Permutation (map (row_of (projects one_entry_db)) (entries one_entry_db))
              (query_entries one_entry_db no_filter).
Proof.
  refine (proj2 (query_entries_empty_project_ids_is_no_filter one_entry_db
                   None None None None _)).
  unfold one_entry_db. apply insert_entry_wf, wf_init_db.
Defined.

(** ** The order and the project column of the result *)


Lemma date_isoformat_leb (a b : date) :
  valid_date a = true -> valid_date b = true ->
  String.leb (date_isoformat a) (date_isoformat b) = date_leb a b.
Proof.
  intros Ha Hb. unfold String.leb, date_leb.
  rewrite date_isoformat_compare by assumption. reflexivity.
Qed.



Lemma wf_atlas_db : wf_db atlas_db.
Proof.
  unfold atlas_db. cbv zeta.
  apply insert_entry_wf, insert_entry_wf, upsert_project_wf, wf_init_db.
Qed.


(** ** Insert, then query *)

Lemma skip_app (a b : string) : skip (String.length a) (a ++ b) = b.
Proof. induction a as [|c a IH]; simpl; [destruct b; reflexivity|exact IH]. Qed.

Lemma date_isoformat_length (d : date) : String.length (date_isoformat d) = 10%nat.
Proof.
  unfold date_isoformat. rewrite !string_length_app, !zpad_length. reflexivity.
Qed.

Lemma zpad_6_split (us : Z) : zpad 6 us = zpad 4 (us / 100) ++ zpad 2 us.
Proof.
  change (zpad 6 us)
    with (zpad 4 (us / 10 / 10) ++ String (digit (us / 10)) ""
          ++ String (digit us) "").
  rewrite Z.div_div by lia. reflexivity.
Qed.

(** The time of an ISO text is in the last half millisecond of the day
    exactly when the timestamp is. *)
Lemma rounds_to_midnight_isoformat (t : datetime) :
  valid_datetime t = true ->
  rounds_to_midnight (skip 10 (isoformat t)) = rounds_to_next_day t.
Proof.
  intros Ht. apply valid_datetime_bounds in Ht.
  destruct Ht as (_ & Hh & Hm & Hs & Hus).
  unfold isoformat. rewrite <- (date_isoformat_length (dt_date t)), skip_app.
  change ("T" ++ ?x) with (String "T" x). unfold rounds_to_midnight.
  rewrite read_zpad by (change (10 ^ Z.of_nat 2) with 100; lia).
  change (":" ++ zpad 2 (minute t) ++ ?x)
    with (String ":" (zpad 2 (minute t) ++ x)). cbv iota.
  rewrite read_zpad by (change (10 ^ Z.of_nat 2) with 100; lia).
  change (":" ++ zpad 2 (second t) ++ ?x)
    with (String ":" (zpad 2 (second t) ++ x)). cbv iota.
  rewrite read_zpad by (change (10 ^ Z.of_nat 2) with 100; lia).
  unfold fraction, rounds_to_next_day.
  destruct (microsecond t =? 0) eqn:E.
  - apply Z.eqb_eq in E. rewrite E. cbv iota.
    rewrite !andb_false_r. reflexivity.
  - change ("." ++ ?x) with (String "." x). cbv iota.
    rewrite zpad_6_split.
    rewrite read_zpad
      by (change (10 ^ Z.of_nat 4) with 10000; split;
          [apply Z.div_pos; lia|apply Z.div_lt_upper_bound; lia]).
    replace (9995 <=? microsecond t / 100) with (999500 <=? microsecond t);
      [reflexivity|].
    apply eq_true_iff_eq. rewrite !Z.leb_le.
    split; intros H.
    + apply Z.div_le_lower_bound; lia.
    + pose proof (Z.mul_div_le (microsecond t) 100 ltac:(lia)). lia.
Qed.

(** The valid timestamps from [end_of_time] on are those of the last
    half millisecond of 9999-12-31. *)
Lemma end_of_time_spec (t : datetime) :
  valid_datetime t = true ->
  if date_eqb (dt_date t) (mk_date 9999 12 31) && rounds_to_next_day t
  then datetime_compare t end_of_time <> Lt
  else datetime_compare t end_of_time = Lt.
Proof.
  intros Ht. apply valid_datetime_bounds in Ht.
  destruct Ht as (Hd & Hh & Hm & Hs & Hus). apply valid_date_bounds in Hd.
  pose proof (days_in_month_le (year (dt_date t)) (month (dt_date t))) as Hdm.
  destruct t as [[y m d] h mi s us]. simpl in *.
  unfold date_eqb, rounds_to_next_day, datetime_compare, date_compare,
    time_compare, end_of_time. simpl.
  destruct (Z.compare_spec y 9999); try lia; simpl; [|reflexivity].
  destruct (Z.compare_spec m 12); try lia; simpl; [|reflexivity].
  destruct (Z.compare_spec d 31); try lia; simpl; [|reflexivity].
  destruct (Z.compare_spec h 23); try lia; simpl;
    [|destruct (h =? 23) eqn:E; [apply Z.eqb_eq in E; lia|reflexivity]].
  subst h. simpl.
  destruct (Z.compare_spec mi 59); try lia; simpl;
    [|destruct (mi =? 59) eqn:E; [apply Z.eqb_eq in E; lia|reflexivity]].
  subst mi. simpl.
  destruct (Z.compare_spec s 59); try lia; simpl;
    [|destruct (s =? 59) eqn:E; [apply Z.eqb_eq in E; lia|reflexivity]].
  subst s. simpl.
  destruct (Z.leb_spec 999500 us); destruct (Z.compare_spec us 999500);
    try lia; try reflexivity; discriminate.
Qed.

Lemma sql_date_isoformat (t : datetime) :
  valid_datetime t = true -> datetime_compare t end_of_time = Lt ->
  sql_date (Some (isoformat t)) = Some (date_isoformat (dt_date t)).
Proof.
  intros H R. unfold sql_date. pose proof (end_of_time_spec t H) as S.
  rewrite parse_isoformat, rounds_to_midnight_isoformat by assumption.
  destruct (date_eqb (dt_date t) (mk_date 9999 12 31) && rounds_to_next_day t);
    [contradiction|reflexivity].
Qed.

Lemma sql_date_date_isoformat (a : date) :
  valid_date a = true ->
  sql_date (Some (date_isoformat a)) = Some (date_isoformat a).
Proof.
  intros H. unfold sql_date. rewrite parse_date_isoformat by assumption.
  rewrite <- (string_app_nil_r (date_isoformat a)) at 1.
  rewrite <- (date_isoformat_length a), skip_app, andb_false_r. reflexivity.
Qed.

(** In the last half millisecond of the year 9999 [DATE(ts)] is NULL. *)
Lemma sql_date_end_of_time (t : datetime) :
  valid_datetime t = true -> datetime_compare t end_of_time <> Lt ->
  sql_date (Some (isoformat t)) = None.
Proof.
  intros H R. unfold sql_date. pose proof (end_of_time_spec t H) as S.
  rewrite parse_isoformat, rounds_to_midnight_isoformat by assumption.
  destruct (date_eqb (dt_date t) (mk_date 9999 12 31) && rounds_to_next_day t);
    [reflexivity|contradiction].
Qed.

Lemma eval_date_ge (x : entry) (t : datetime) (a : date) :
  e_ts x = isoformat t -> valid_datetime t = true ->
  datetime_compare t end_of_time = Lt -> valid_date a = true ->
  eval_condition x (Date_ge (date_isoformat a)) = Some (date_leb a (dt_date t)).
Proof.
  intros E Ht R Ha. unfold eval_condition.
  rewrite E, sql_date_isoformat, sql_date_date_isoformat by assumption.
  simpl. rewrite date_isoformat_leb; [reflexivity|assumption|].
  apply valid_datetime_bounds in Ht. tauto.
Qed.

Lemma eval_date_le (x : entry) (t : datetime) (b : date) :
  e_ts x = isoformat t -> valid_datetime t = true ->
  datetime_compare t end_of_time = Lt -> valid_date b = true ->
  eval_condition x (Date_le (date_isoformat b)) = Some (date_leb (dt_date t) b).
Proof.
  intros E Ht R Hb. unfold eval_condition.
  rewrite E, sql_date_isoformat, sql_date_date_isoformat by assumption.
  simpl. rewrite date_isoformat_leb; [reflexivity| |assumption].
  apply valid_datetime_bounds in Ht. tauto.
Qed.


(** An entry stamped in the last half millisecond of the year 9999
    fails every date bound: [DATE(ts)] is NULL and so is the
    comparison. *)
Lemma eval_date_bound_end_of_time (x : entry) (t : datetime) (p : string) :
  e_ts x = isoformat t -> valid_datetime t = true ->
  datetime_compare t end_of_time <> Lt ->
  eval_condition x (Date_ge p) = None /\ eval_condition x (Date_le p) = None.
Proof.
  intros E Ht R. unfold eval_condition.
  rewrite E, (sql_date_end_of_time t Ht R). split; reflexivity.
Qed.




(** ** The text filter *)

Lemma pattern_compare_percent (t : string) : pattern_compare "%" t = true.
Proof.
  induction t as [|c t IH]; [reflexivity|].
  change (pattern_compare "%" (String c t)) with (pattern_compare "" (String c t) || pattern_compare "%" t).
  rewrite IH. apply orb_true_r.
Qed.

Lemma pattern_compare_star (p t : string) :
  pattern_compare (String "%" p) t =
  pattern_compare p t || match t with
              | EmptyString => false
              | String _ t' => pattern_compare (String "%" p) t'
              end.
Proof. destruct t; reflexivity. Qed.

Lemma pattern_compare_literal (c : ascii) (p t : string) :
  Ascii.eqb c "%" = false -> Ascii.eqb c "_" = false ->
  pattern_compare (String c p) t =
  match t with
  | EmptyString => false
  | String b t' => Ascii.eqb (lower b) (lower c) && pattern_compare p t'
  end.
Proof. intros H1 H2. simpl. rewrite H1, H2. reflexivity. Qed.

Lemma no_wildcard_cons (c : ascii) (s : string) :
  no_wildcard (String c s) = true ->
  Ascii.eqb c "%" = false /\ Ascii.eqb c "_" = false /\ no_wildcard s = true.
Proof.
  simpl. rewrite !andb_true_iff, !negb_true_iff. tauto.
Qed.

Lemma pattern_compare_prefix (s t : string) :
  no_wildcard s = true -> pattern_compare (s ++ "%") t = ci_prefix s t.
Proof.
  revert t. induction s as [|c s IH]; intros t Hs.
  - apply pattern_compare_percent.
  - apply no_wildcard_cons in Hs. destruct Hs as (H1 & H2 & Hs).
    change (String c s ++ "%") with (String c (s ++ "%")).
    rewrite (pattern_compare_literal c _ t H1 H2).
    destruct t as [|b t]; [reflexivity|]. simpl. rewrite IH by assumption.
    reflexivity.
Qed.

(** Without wildcards in [s], the pattern [%s%] matches the texts that
    contain [s] up to ASCII case. *)
Lemma pattern_compare_contains (s t : string) :
  no_wildcard s = true -> pattern_compare ("%" ++ s ++ "%") t = ci_contains s t.
Proof.
  intros Hs. change ("%" ++ s ++ "%") with (String "%" (s ++ "%")).
  induction t as [|c t IH]; rewrite pattern_compare_star, pattern_compare_prefix by assumption.
  - reflexivity.
  - rewrite IH. reflexivity.
Qed.

Lemma c_str_no_nul (s : string) : no_nul s = true -> c_str s = s.
Proof.
  induction s as [|c s IH]; simpl; [reflexivity|].
  destruct (code c =? 0); [discriminate|]. intros H. rewrite IH by exact H.
  reflexivity.
Qed.

Lemma no_nul_app (a b : string) :
  no_nul (a ++ b) = no_nul a && no_nul b.
Proof.
  induction a as [|c a IH]; simpl; [reflexivity|].
  rewrite IH, andb_assoc. reflexivity.
Qed.

(** Without wildcards and NUL in [s], [t LIKE %s%] holds of the texts
    that contain [s], up to ASCII case, before their first NUL. *)
Lemma like_contains (s t : string) :
  no_wildcard s = true -> no_nul s = true ->
  like ("%" ++ s ++ "%") t = ci_contains s (c_str t).
Proof.
  intros Hs Hn. unfold like.
  rewrite c_str_no_nul
    by (change ("%" ++ s ++ "%") with (String "%" (s ++ "%"));
        cbn [no_nul]; rewrite no_nul_app, Hn; reflexivity).
  apply pattern_compare_contains. assumption.
Qed.

Lemma ci_prefix_spec (s t : string) :
  ci_prefix s t = true <->
  exists mid post, t = mid ++ post /\ casefold mid = casefold s.
Proof.
  revert t. induction s as [|a s IH]; intros t.
  - split; [|reflexivity]. intros _. exists "", t. auto.
  - destruct t as [|b t]; simpl.
    + split; [discriminate|]. intros (mid & post & E & F).
      destruct mid; simpl in *; discriminate.
    + rewrite andb_true_iff, Ascii.eqb_eq, IH. split.
      * intros (Hc & mid & post & -> & F). exists (String b mid), post.
        simpl. rewrite Hc, F. auto.
      * intros (mid & post & E & F). destruct mid as [|m mid];
          simpl in *; [discriminate|].
        injection E as -> ->. injection F as Hc F. eauto.
Qed.

Lemma ci_contains_spec (s t : string) :
  ci_contains s t = true <-> ci_substring s t.
Proof.
  unfold ci_substring. induction t as [|c t IH]; simpl.
  - rewrite orb_false_r, ci_prefix_spec. split.
    + intros (mid & post & E & F). exists "", mid, post. auto.
    + intros (pre & mid & post & E & F). destruct pre; [|discriminate].
      exists mid, post. auto.
  - rewrite orb_true_iff, ci_prefix_spec, IH. split.
    + intros [(mid & post & E & F)|(pre & mid & post & E & F)].
      * exists "", mid, post. auto.
      * exists (String c pre), mid, post. simpl. rewrite E. auto.
    + intros (pre & mid & post & E & F). destruct pre as [|x pre].
      * left. exists mid, post. auto.
      * right. simpl in E. injection E as -> ->. exists pre, mid, post. auto.
Qed.

Lemma is_true_or3 (a b c : option bool) :
  is_true (sql_or (sql_or a b) c) = true <->
  a = Some true \/ b = Some true \/ c = Some true.
Proof.
  destruct a as [[]|], b as [[]|], c as [[]|]; simpl;
    intuition congruence.
Qed.

Lemma sql_like_true (x : option string) (s : string) :
  no_wildcard s = true -> no_nul s = true ->
  sql_like x ("%" ++ s ++ "%") = Some true <->
  exists v, x = Some v /\ ci_substring s (c_str v).
Proof.
  intros Hs Hn. destruct x as [v|]; unfold sql_like, option_map.
  - rewrite (like_contains s v Hs Hn). split.
    + intros [= H]. exists v. split; [reflexivity|].
      apply ci_contains_spec. assumption.
    + intros (v' & [= <-] & H). apply ci_contains_spec in H. rewrite H.
      reflexivity.
  - split; [discriminate|]. intros (v & E & _). discriminate.
Qed.

Lemma ci_substring_empty (t : string) : ci_substring "" t.
Proof. exists "", "", t. auto. Qed.

(** The WHERE clause of a filter that has only the search text. *)
Lemma eval_where_text (s : string) (e : entry) :
  no_wildcard s = true -> no_nul s = true ->
  eval_where (conditions (mk_filter None None None (Some s) None)) e = true <->
  ci_substring s (c_str (e_title e)) \/
  (exists n, e_notes_md e = Some n /\ ci_substring s (c_str n)) \/
  (exists p, e_path e = Some p /\ ci_substring s (c_str p)).
Proof.
  intros Hs Hn. destruct s as [|c s].
  - simpl. split; [|reflexivity]. intros _. left. apply ci_substring_empty.
  - unfold conditions.
    cbn [start end_ project_ids text tags_like truthy_opt_list
         truthy_opt_str truthy_str app eval_where fold_left eval_condition].
    rewrite is_true_or3, !sql_like_true by assumption.
    split.
    + intros [(v & [= <-] & H)|[H|H]]; auto.
    + intros [H|[H|H]]; eauto.
Qed.

(** *** When the call returns *)

Lemma like_refused_false (e : entry) (cs : list condition) :
  forallb (fun c => negb (pattern_too_complex c)) cs = true ->
  like_refused e cs = false.
Proof.
  induction cs as [|c cs IH]; simpl; [reflexivity|].
  rewrite andb_true_iff, negb_true_iff. intros [-> H].
  rewrite (IH H), andb_false_r. reflexivity.
Qed.

(** The call returns the frame when the [?] are no more than the build
    takes, every id fits 64 bits and no pattern is over the limit. *)
Lemma query_entries_call_returns
    (max_variable_number : Z) (d : db) (f : query_filter) :
  fold_right Z.add 0 (map variable_number (conditions f))
    <= max_variable_number ->
  forallb binds (conditions f) = true ->
  forallb (fun c => negb (pattern_too_complex c)) (conditions f) = true ->
  query_entries_call max_variable_number d f = Some (query_entries d f).
Proof.
  intros Hv Hb Hp. unfold query_entries_call.
  rewrite (proj2 (Z.leb_le _ _) Hv), Hb.
  replace (existsb _ (entries d)) with false; [reflexivity|].
  symmetry. induction (entries d) as [|e es IH]; simpl; [reflexivity|].
  rewrite (like_refused_false e _ Hp). exact IH.
Qed.

(** The call raises when an entry meets a LIKE that is refused. *)
Lemma query_entries_call_refused
    (max_variable_number : Z) (d : db) (f : query_filter) (e : entry) :
  In e (entries d) -> like_refused e (conditions f) = true ->
  query_entries_call max_variable_number d f = None.
Proof.
  intros He Hr. unfold query_entries_call.
  replace (existsb _ (entries d)) with true;
    [rewrite andb_false_r; reflexivity|].
  symmetry. apply existsb_exists. eauto.
Qed.

(** The call raises when an id of the list does not fit 64 bits. *)
Lemma query_entries_call_overflow
    (max_variable_number : Z) (d : db) (f : query_filter) :
  forallb binds (conditions f) = false ->
  query_entries_call max_variable_number d f = None.
Proof.
  intros Hb. unfold query_entries_call.
  rewrite Hb, andb_false_r. reflexivity.
Qed.

Lemma utf8_bytes_app (a b : string) :
  utf8_bytes (a ++ b) = utf8_bytes a + utf8_bytes b.
Proof. induction a as [|c a IH]; simpl; [reflexivity|]. rewrite IH. lia. Qed.

Lemma utf8_bytes_pattern (s : string) :
  utf8_bytes ("%" ++ s ++ "%") = utf8_bytes s + 2.
Proof.
  rewrite !utf8_bytes_app. change (utf8_bytes "%") with 1. lia.
Qed.

Lemma pattern_fits (s : string) :
  utf8_bytes s <= 49998 ->
  (max_like_pattern_length <? utf8_bytes ("%" ++ s ++ "%")) = false.
Proof.
  intros H. rewrite utf8_bytes_pattern. apply Z.ltb_ge.
  unfold max_like_pattern_length. lia.
Qed.

Lemma pattern_exceeds (s : string) :
  49998 < utf8_bytes s ->
  (max_like_pattern_length <? utf8_bytes ("%" ++ s ++ "%")) = true.
Proof.
  intros H. rewrite utf8_bytes_pattern. apply Z.ltb_lt.
  unfold max_like_pattern_length. lia.
Qed.

Lemma key_injective {A K : Type} (key : A -> K) (l : list A) (a b : A) :
  NoDup (map key l) -> In a l -> In b l -> key a = key b -> a = b.
Proof.
  induction l as [|x l IH]; simpl; intros Hnd Ha Hb E; [contradiction|].
  inversion Hnd as [|? ? Hx Hnd']; subst.
  destruct Ha as [->|Ha], Hb as [->|Hb]; auto.
  - exfalso. apply Hx. rewrite E. apply in_map. assumption.
  - exfalso. apply Hx. rewrite <- E. apply in_map. assumption.
Qed.

(** The search text ["_"] returns the entry titled ["x"] with empty notes
    and path, though none of the three contains an underscore. *)
Lemma text_filter_underscore_is_a_wildcard :
  query_entries one_entry_db (mk_filter None None None (Some "_") None) =
  [mk_row 1 "2024-03-01T09:30:00" "x" "" (Some "Other") (Some "") (Some "")
     None (Some "")] /\
  ~ ci_substring "_" "x" /\ ~ ci_substring "_" "".
Proof.
  split; [reflexivity|].
  split; intros H; apply ci_contains_spec in H; discriminate H.
Qed.

(** LIKE stops reading at a NUL: the title [a NUL bc] is not found under
    [bc], and the search text NUL finds every title. *)
Example like_reads_to_the_first_nul :
  let nul := String (ascii_of_nat 0) "" in
  like ("%" ++ "bc" ++ "%") ("a" ++ nul ++ "bc") = false /\
  like ("%" ++ nul ++ "%") "x" = true /\
  like ("%" ++ "bc" ++ "%") "abcd" = true.
Proof. repeat split. Qed.

(** C4, as the code has it.  The search text is put between two [%] in a
    LIKE pattern as it is, and LIKE reads a text up to its first NUL and
    takes a pattern of at most 50000 bytes.  On a build of SQLite that
    takes three [?], and with an entry stored: the query filtered by a
    search text of more than 49998 bytes raises; for a search text [s]
    of at most 49998 bytes without [%], [_] and NUL, the query
    filtered by [s] alone returns, and it includes a stored entry
    exactly when its title, its notes or its path contains [s], before
    its first NUL if it has one, as a substring up to ASCII case. *)
Theorem query_entries_text_filter
    (max_variable_number : Z) (d : db) (s : string) (e : entry) :
  wf_db d -> In e (entries d) -> 3 <= max_variable_number ->
  (49998 < utf8_bytes s ->
   query_entries_call max_variable_number d
     (mk_filter None None None (Some s) None) = None) /\
  (no_wildcard s = true -> no_nul s = true -> utf8_bytes s <= 49998 ->
   exists rows,
     query_entries_call max_variable_number d
       (mk_filter None None None (Some s) None) = Some rows /\
     ((exists r, In r rows /\ r_id r = e_id e) <->
      (ci_substring s (c_str (e_title e)) \/
       (exists n, e_notes_md e = Some n /\ ci_substring s (c_str n)) \/
       (exists p, e_path e = Some p /\ ci_substring s (c_str p))))).
Proof.
  intros Hwf He Hv. split.
  - intros Hl. apply (query_entries_call_refused _ d _ e He).
    destruct s as [|c s]; [simpl in Hl; lia|]. unfold conditions.
    cbn [start end_ project_ids text tags_like truthy_opt_list
         truthy_opt_str truthy_str app like_refused pattern_too_complex].
    rewrite (pattern_exceeds _ Hl). reflexivity.
  - intros Hs Hn Hl. eexists. split.
    + apply query_entries_call_returns; destruct s as [|c s];
        try reflexivity; unfold conditions;
        cbn [start end_ project_ids text tags_like truthy_opt_list
             truthy_opt_str truthy_str app map fold_right forallb
             variable_number binds pattern_too_complex];
        [lia|lia|].
      rewrite (pattern_fits _ Hl). reflexivity.
    + rewrite <- (eval_where_text s e Hs Hn). split.
      * intros (r & Hr & Hid).
        apply (in_query_entries d _ r (wf_project_ids d Hwf)) in Hr.
        destruct Hr as (e' & He' & Hw & ->). simpl in Hid.
        rewrite <- (key_injective e_id (entries d) e' e
                      (wf_entry_ids d Hwf) He' He Hid).
        assumption.
      * intros Hw. exists (row_of (projects d) e). split; [|reflexivity].
        apply (in_query_entries d _ _ (wf_project_ids d Hwf)). eauto.
Qed.

Lemma query_entries_text_filter_witness :
  query_entries_call 999 atlas_db
    (mk_filter None None None (Some long_text) None) = None /\
  exists rows,
    query_entries_call 999 atlas_db
      (mk_filter None None None (Some "RAN") None) = Some rows /\
    exists r, In r rows /\ r_id r = 1.
Proof.
  split.
  { apply (proj1 (query_entries_text_filter 999 atlas_db long_text
                    (mk_entry 1 "2024-03-01T09:30:00" "Ran calibration"
                       (Some 1) (Some "Experiment") (Some "calib,v2")
                       (Some "/home/u/atlas/run1")
                       (Some (S754_finite false 3 (-1))) (Some "Passed")
                       "2024-03-01T09:31:00")
                    wf_atlas_db (or_introl eq_refl) ltac:(lia))).
    vm_compute. reflexivity. }
  destruct (proj2 (query_entries_text_filter 999 atlas_db "RAN"
                     (mk_entry 1 "2024-03-01T09:30:00" "Ran calibration"
                        (Some 1) (Some "Experiment") (Some "calib,v2")
                        (Some "/home/u/atlas/run1")
                        (Some (S754_finite false 3 (-1))) (Some "Passed")
                        "2024-03-01T09:31:00")
                     wf_atlas_db (or_introl eq_refl) ltac:(lia))
              eq_refl eq_refl ltac:(vm_compute; discriminate))
    as (rows & Hc & Hiff).
  exists rows. split; [exact Hc|]. apply (proj2 Hiff).
  left. exists "", "Ran", " calibration". split; reflexivity.
Defined.

(** ** The calendar order *)








(** ** The keys of the groups *)






(** ** Grouping loses and repeats nothing *)

Section Partition.
Context {A K : Type} (key : A -> K) (eqb : K -> K -> bool).
Hypothesis eqb_eq : forall x y, eqb x y = true <-> x = y.



Lemma filter_all (p : A -> bool) (l : list A) :
  (forall x, In x l -> p x = true) -> filter p l = l.
Proof.
  induction l as [|x l IH]; simpl; intros H; [reflexivity|].
  rewrite (H x) by auto. f_equal. auto.
Qed.

End Partition.

(** ** The exports *)








Lemma sort_by_single {A : Type} (leb : A -> A -> bool) (x : A) :
  sort_by leb [x] = [x].
Proof. reflexivity. Qed.

(** With the line feed as line terminator a field holding a carriage
    return is written as it is, and one holding a line feed or a comma
    is quoted; with carriage return and line feed as terminator a
    carriage return is quoted too. *)
Example csv_field_quotes :
  let cr := String (ascii_of_nat 13) "" in
  csv_field nl ("c" ++ cr ++ "d") = "c" ++ cr ++ "d" /\
  csv_field nl ("c" ++ nl ++ "d") = dquote ++ "c" ++ nl ++ "d" ++ dquote /\
  csv_field nl "c,d" = dquote ++ "c,d" ++ dquote /\
  csv_field (cr ++ nl) ("c" ++ cr ++ "d") = dquote ++ "c" ++ cr ++ "d" ++ dquote.
Proof. repeat split. Qed.

(** C8.  With no rows, both exports return: the CSV download is the empty
    byte sequence, and the journal is the fixed document that says there
    are no entries in the selected range. *)
Theorem exports_of_no_rows
    (linesep : string) (repr_float : spec_float -> string)
    (human_path_link : string -> string) :
  export_csv linesep repr_float [] = "" /\
  export_markdown repr_float human_path_link [] =
  Some ("# Worklog" ++ nl ++ nl ++ "_No entries in the selected range._" ++ nl).
Proof. split; reflexivity. Qed.



(** The journal of two entries stamped to the second, line by line. *)
Example journal_of_journal_db :
  export_markdown (fun _ => "1.5") (fun p => p)
    (query_entries journal_db no_filter) =
  Some (String.concat nl
          ["# Worklog Export" ++ nl;
           nl ++ "## 2024-03-01" ++ nl;
           "### Ran calibration" ++ nl;
           "- **Time:** 2024-03-01T09:30:00" ++ nl;
           "- **Project:** Atlas" ++ nl;
           "- **Type:** Experiment" ++ nl;
           "- **Tags:** calib,v2" ++ nl;
           "- **Path:** /home/u/atlas/run1" ++ nl;
           "- **Duration:** 1.5 h" ++ nl;
           nl ++ "Passed" ++ nl;
           nl ++ "## 2024-03-02" ++ nl;
           "### Read papers" ++ nl;
           "- **Time:** 2024-03-02T08:00:00" ++ nl;
           "- **Type:** Review" ++ nl]).
Proof. reflexivity. Qed.


(** * Further properties *)

(** ** Looking a project up by name *)

Lemma update_base_path_filter_ids (P : string -> bool) (b : option string)
    (X : string) (ps : list project) :
  map p_id (filter (fun q => P (p_name q)) (update_base_path b X ps)) =
  map p_id (filter (fun q => P (p_name q)) ps).
Proof.
  induction ps as [|p ps IH]; simpl; [reflexivity|].
  destruct (String.eqb (p_name p) X); simpl;
    destruct (P (p_name p)); simpl; rewrite IH; reflexivity.
Qed.

Lemma select_project_ids_update (d : db) (b : option string) (X Y : string) :
  map p_id (filter (fun p => String.eqb (p_name p) Y)
              (update_base_path b X (projects d))) =
  select_project_ids d Y.
Proof.
  apply (update_base_path_filter_ids (fun n => String.eqb n Y)).
Qed.

(** After [upsert_project] on a name, looking that name up gives an id:
    the id the name had before, or else the fresh rowid of the new row.
    Looking any other name up gives what it gave before. *)
Theorem get_project_id_after_upsert
    (d : db) (X Y : string) (b : option string) (now : string) :
  get_project_id_by_name (snd (upsert_project d X b now)) Y =
  if String.eqb Y X then
    Some (match get_project_id_by_name d X with
          | Some old => old
          | None => next_rowid (projects_seq d) (map p_id (projects d))
          end)
  else get_project_id_by_name d Y.
Proof.
  unfold get_project_id_by_name, upsert_project.
  destruct (fetchone (select_project_ids d X)) as [old|] eqn:F.
  - unfold select_project_ids at 1. simpl projects.
    rewrite select_project_ids_update.
    destruct (String.eqb_spec Y X) as [->|N]; [exact F|reflexivity].
  - pose proof F as F'. apply fetchone_none in F'.
    apply select_project_ids_nil in F'.
    unfold insert_project_row.
    rewrite (proj2 (existsb_key_false p_name String.eqb String.eqb_eq _ _) F').
    unfold select_project_ids at 1. simpl projects.
    rewrite filter_app, map_app. simpl filter.
    rewrite String.eqb_sym.
    destruct (String.eqb_spec Y X) as [->|N]; simpl.
    + apply fetchone_none in F. unfold select_project_ids in F. rewrite F.
      reflexivity.
    + rewrite app_nil_r. reflexivity.
Qed.

(** [get_project_id_by_name] finds a name exactly when a project row has
    it, and then returns that row's id; the match is on the exact text. *)
Theorem get_project_id_by_name_spec (d : db) (X : string) :
  wf_db d ->
  (get_project_id_by_name d X = None <-> ~ In X (map p_name (projects d))) /\
  (forall id, get_project_id_by_name d X = Some id <->
              exists p, In p (projects d) /\ p_name p = X /\ p_id p = id).
Proof.
  intros Hwf. unfold get_project_id_by_name. split.
  - rewrite fetchone_none. apply select_project_ids_nil.
  - intros id. split.
    + unfold select_project_ids.
      destruct (filter (fun p => String.eqb (p_name p) X) (projects d))
        as [|p l] eqn:E; [discriminate|].
      simpl. intros [= <-].
      assert (Hp : In p (filter (fun p => String.eqb (p_name p) X) (projects d)))
        by (rewrite E; left; reflexivity).
      apply filter_In in Hp. destruct Hp as [Hp N].
      apply String.eqb_eq in N. eauto.
    + intros (p & Hp & <- & <-). unfold select_project_ids.
      rewrite (filter_key_unique p_name String.eqb String.eqb_eq p _
                 (wf_project_names d Hwf) Hp).
      reflexivity.
Qed.

Lemma get_project_id_by_name_spec_witness :
  get_project_id_by_name atlas_db "Atlas" = Some 1 /\
  get_project_id_by_name atlas_db "atlas" = None.
Proof.
  destruct (get_project_id_by_name_spec atlas_db "Atlas" wf_atlas_db)
    as [_ H].
  split; [|reflexivity].
  apply (proj2 (H 1)). eexists. split; [left; reflexivity|].
  split; reflexivity.
Defined.

(** ** Listing the projects *)

Lemma string_leb_neq_ltb (a b : string) :
  String.leb a b = true -> a <> b -> String.ltb a b = true.
Proof.
  unfold String.leb, String.ltb. destruct (String.compare a b) eqn:E.
  - apply String.compare_eq_iff in E. contradiction.
  - reflexivity.
  - discriminate.
Qed.

Lemma StronglySorted_strict {A K : Type} (key : A -> K) (R S : A -> A -> Prop)
    (l : list A) :
  (forall a b, R a b -> key a <> key b -> S a b) ->
  NoDup (map key l) -> StronglySorted R l -> StronglySorted S l.
Proof.
  intros HRS Hnd Hs. induction Hs as [|a l Hs IH Ha]; [constructor|].
  simpl in Hnd. inversion Hnd as [|? ? Hnot Hnd']; subst.
  constructor; [auto|].
  rewrite Forall_forall in *. intros b Hb. apply HRS; [auto|].
  intros E. apply Hnot. rewrite E. apply in_map. assumption.
Qed.

(** [list_projects] returns every project row once, in strictly
    ascending order of name (compared as text, so by character code). *)
Theorem list_projects_sorted (d : db) :
  wf_db d ->
  Permutation (projects d) (list_projects d) /\
  StronglySorted (fun a b => String.ltb (p_name a) (p_name b) = true)
                 (list_projects d).
Proof.
  intros Hwf. split; [apply sort_by_perm|].
  apply (StronglySorted_strict p_name (fun a b => name_asc a b = true)).
  - intros a b. apply string_leb_neq_ltb.
  - eapply Permutation_NoDup; [|exact (wf_project_names d Hwf)].
    apply Permutation_map, sort_by_perm.
  - apply sort_by_sorted.
    + intros a b. apply String.leb_total.
    + intros a b c. apply string_leb_trans.
Qed.

Lemma list_projects_sorted_witness :
  let d := snd (upsert_project
                  (snd (upsert_project init_db "beta" None "2024-01-01T00:00:00"))
                  "Alpha" None "2024-01-02T00:00:00") in
  map p_name (projects d) = ["beta"; "Alpha"] /\
  map p_name (list_projects d) = ["Alpha"; "beta"] /\
  StronglySorted (fun a b => String.ltb (p_name a) (p_name b) = true)
                 (list_projects d).
Proof.
  intros d. split; [reflexivity|]. split; [reflexivity|].
  apply (proj2 (list_projects_sorted d
                  (upsert_project_wf _ _ _ _
                     (upsert_project_wf _ _ _ _ wf_init_db)))).
Defined.

(** ** Rowids are handed out in order *)

Lemma StronglySorted_snoc {A : Type} (R : A -> A -> Prop) (l : list A) (x : A) :
  StronglySorted R l -> Forall (fun y => R y x) l ->
  StronglySorted R (l ++ [x])%list.
Proof.
  induction 1 as [|a l Hs IH Ha]; simpl; intros Hx.
  - repeat constructor.
  - inversion Hx; subst. constructor; [auto|].
    apply Forall_app. split; [assumption|]. constructor; [assumption|constructor].
Qed.

Lemma max_rowid_nonneg (ids : list Z) : 0 <= max_rowid ids.
Proof. induction ids as [|i ids IH]; simpl; lia. Qed.

Lemma ids_in_order_next (seq : Z) (ids : list Z) :
  ids_in_order seq ids ->
  ids_in_order (next_rowid seq ids) (ids ++ [next_rowid seq ids])%list.
Proof.
  intros [Hs Hb]. pose proof (max_rowid_nonneg ids) as Hm.
  unfold next_rowid. split.
  - apply StronglySorted_snoc; [assumption|].
    eapply Forall_impl; [|exact Hb]. simpl. intros i Hi. lia.
  - apply Forall_app. split.
    + eapply Forall_impl; [|exact Hb]. simpl. intros i Hi. lia.
    + constructor; [lia|constructor].
Qed.

(** In every state the application reaches, each table's ids ascend
    strictly in storage order and lie between 1 and the table's counter:
    a new row always gets an id above all earlier ones. *)
Theorem run_ids_in_order (ops : list write_op) :
  ids_in_order (projects_seq (run ops)) (map p_id (projects (run ops))) /\
  ids_in_order (entries_seq (run ops)) (map e_id (entries (run ops))) /\
  ids_in_order (attachments_seq (run ops)) (map a_id (attachments (run ops))).
Proof.
  unfold run.
  assert (H0 : ids_in_order (projects_seq init_db) (map p_id (projects init_db)) /\
               ids_in_order (entries_seq init_db) (map e_id (entries init_db)) /\
               ids_in_order (attachments_seq init_db)
                            (map a_id (attachments init_db)))
    by (repeat split; constructor).
  revert H0. generalize init_db.
  induction ops as [|o ops IH]; intros d Hd; simpl; [exact Hd|].
  apply IH. destruct Hd as (Hp & He & Ha). destruct o; simpl.
  - unfold upsert_project.
    destruct (fetchone (select_project_ids d name)); simpl.
    + rewrite update_base_path_ids. auto.
    + unfold insert_project_row.
      destruct (existsb _ (projects d)); simpl; [auto|].
      rewrite map_app. simpl. split; [|auto].
      apply ids_in_order_next. assumption.
  - unfold insert_entry. destruct (project_fk_ok get_conn d project_id);
      simpl; [|destruct (opt_in_int64 project_id); simpl; auto].
    rewrite map_app. simpl. split; [assumption|]. split; [|assumption].
    apply ids_in_order_next. assumption.
  - unfold insert_attachment. destruct (entry_fk_ok get_conn d entry_id);
      simpl; [|destruct (in_int64 entry_id); simpl; auto].
    rewrite map_app. simpl. split; [assumption|]. split; [assumption|].
    apply ids_in_order_next. assumption.
Qed.

(** ** Entries: the reference to a project is enforced *)

(** With no connection left open on the file, [insert_entry] with a
    project id of 64 bits that identifies no project raises the
    constraint error and stores nothing, leaving its connection open with
    the write lock; a project id beyond 64 bits raises [OverflowError]
    and stores nothing.  Without a project, and with no connection left
    open, it stores the entry under an id no entry has and leaves the
    other tables as they are. *)
Theorem insert_entry_foreign_key
    (s : store) (ts : datetime) (title : string) (pid : Z)
    (work_type tags path : string) (duration_hours : option spec_float)
    (notes_md now : string) :
  (st_locked s = false -> ~ In pid (map p_id (projects (st_db s))) ->
   in_int64 pid = true ->
   insert_entry_call s ts title (Some pid) work_type tags path duration_hours
     notes_md now =
   (Raised (Integrity_error FOREIGN_KEY_constraint_failed),
    mk_store (st_db s) true)) /\
  (~ In pid (map p_id (projects (st_db s))) -> in_int64 pid = false ->
   fst (insert_entry_call s ts title (Some pid) work_type tags path
          duration_hours notes_md now) = Raised Overflow_error /\
   st_db (snd (insert_entry_call s ts title (Some pid) work_type tags path
                 duration_hours notes_md now)) = st_db s) /\
  (st_locked s = false ->
   exists id d',
     insert_entry_call s ts title None work_type tags path duration_hours
       notes_md now = (Returned id, mk_store d' false) /\
     ~ In id (map e_id (entries (st_db s))) /\
     map e_id (entries d') = (map e_id (entries (st_db s)) ++ [id])%list /\
     projects d' = projects (st_db s) /\
     attachments d' = attachments (st_db s)).
Proof.
  destruct s as [d l]. unfold insert_entry_call, insert_entry.
  cbn [st_locked st_db opt_in_int64].
  split; [|split].
  - intros -> Hout R. rewrite R. cbn [andb].
    destruct (project_fk_ok get_conn d (Some pid)) eqn:F; [|reflexivity].
    exfalso. apply Hout.
    apply (proj1 (project_fk_ok_iff d (Some pid)) F pid eq_refl).
  - intros Hout R. rewrite R, andb_false_r.
    destruct (project_fk_ok get_conn d (Some pid)) eqn:F.
    + exfalso. apply Hout.
      apply (proj1 (project_fk_ok_iff d (Some pid)) F pid eq_refl).
    + split; reflexivity.
  - intros ->. cbn [andb]. change (project_fk_ok get_conn d None) with true.
    cbv iota zeta. do 2 eexists. split; [reflexivity|].
    split; [apply next_rowid_fresh|]. simpl. rewrite map_app. auto.
Qed.

Lemma insert_entry_foreign_key_witness :
  insert_entry_call (mk_store atlas_db false) sample_time "x" (Some 5) "Other"
    "" "" None "" "2024-03-03T00:00:00" =
  (Raised (Integrity_error FOREIGN_KEY_constraint_failed),
   mk_store atlas_db true) /\
  fst (insert_entry_call (mk_store atlas_db false) sample_time "x"
         (Some (2 ^ 63)) "Other" "" "" None "" "2024-03-03T00:00:00") =
  Raised Overflow_error.
Proof.
  split.
  - apply (proj1 (insert_entry_foreign_key (mk_store atlas_db false) sample_time
                    "x" 5 "Other" "" "" None "" "2024-03-03T00:00:00"));
      [reflexivity| |reflexivity].
    simpl. intros [H|[]]. discriminate H.
  - apply (proj1 (proj2 (insert_entry_foreign_key (mk_store atlas_db false)
                           sample_time "x" (2 ^ 63) "Other" "" "" None ""
                           "2024-03-03T00:00:00")));
      [|reflexivity].
    simpl. intros [H|[]]. discriminate H.
Defined.

(** ** Attachments: insert, then list *)

Section SortSnoc.
Context {A : Type} (leb : A -> A -> bool).

Lemma insert_by_snoc (y x : A) (s : list A) :
  leb y x = true ->
  insert_by leb y (s ++ [x])%list = (insert_by leb y s ++ [x])%list.
Proof.
  intros H. induction s as [|z s IH]; simpl.
  - rewrite H. reflexivity.
  - destruct (leb y z); [reflexivity|]. rewrite IH. reflexivity.
Qed.

Lemma sort_by_snoc (l : list A) (x : A) :
  (forall y, In y l -> leb y x = true) ->
  sort_by leb (l ++ [x])%list = (sort_by leb l ++ [x])%list.
Proof.
  induction l as [|y l IH]; simpl; intros H; [reflexivity|].
  unfold sort_by in *. rewrite IH by auto.
  apply insert_by_snoc. auto.
Qed.
End SortSnoc.

(** On an existing entry, [insert_attachment] followed by
    [get_attachments] for that entry gives the rows listed before and
    then the new row, last; the list of any other entry is as before. *)
Theorem insert_attachment_then_get_attachments
    (d : db) (entry_id : Z) (filename rel_path now : string) :
  In entry_id (map e_id (entries d)) ->
  exists id d',
    insert_attachment d entry_id filename rel_path now = (Returned tt, d') /\
    get_attachments d' entry_id =
    (get_attachments d entry_id ++
     [mk_attachment id entry_id filename rel_path now])%list /\
    (forall other, other <> entry_id ->
                   get_attachments d' other = get_attachments d other).
Proof.
  intros Hin. unfold insert_attachment.
  rewrite (proj2 (entry_fk_ok_iff d entry_id) Hin).
  do 2 eexists. split; [reflexivity|]. unfold get_attachments. simpl.
  split.
  - rewrite filter_app. simpl. rewrite Z.eqb_refl.
    apply sort_by_snoc. intros y Hy. apply filter_In in Hy.
    destruct Hy as [Hy _]. unfold id_asc. simpl. apply Z.leb_le.
    pose proof (max_rowid_ge (map a_id (attachments d)) (a_id y)
                  (in_map a_id _ _ Hy)).
    unfold next_rowid. lia.
  - intros other Ho. rewrite filter_app. simpl.
    destruct (Z.eqb_spec entry_id other) as [E|_]; [congruence|].
    rewrite app_nil_r. reflexivity.
Qed.

Lemma insert_attachment_then_get_attachments_witness :
  exists id d',
    insert_attachment one_entry_db 1 "a.txt" "attachments/entry_1/a.txt"
      "2024-03-01T10:00:00" = (Returned tt, d') /\
    get_attachments d' 1 =
    [mk_attachment id 1 "a.txt" "attachments/entry_1/a.txt"
       "2024-03-01T10:00:00"].
Proof.
  destruct (insert_attachment_then_get_attachments one_entry_db 1 "a.txt"
              "attachments/entry_1/a.txt" "2024-03-01T10:00:00"
              (or_introl eq_refl))
    as (id & d' & Hi & Hg & _).
  exists id, d'. split; [exact Hi|exact Hg].
Defined.

(** [get_attachments] lists exactly the attachment rows of the entry,
    in ascending order of id. *)
Theorem get_attachments_sorted (d : db) (entry_id : Z) :
  wf_db d ->
  (forall a, In a (get_attachments d entry_id) <->
             In a (attachments d) /\ a_entry_id a = entry_id) /\
  StronglySorted (fun a b => a_id a < a_id b) (get_attachments d entry_id).
Proof.
  intros Hwf. unfold get_attachments. split.
  - intros a. rewrite <- Z.eqb_eq, <- (filter_In (fun a => a_entry_id a =? entry_id)).
    split; apply Permutation_in;
      [apply Permutation_sym|]; apply sort_by_perm.
  - apply (StronglySorted_strict a_id (fun a b => id_asc a b = true)).
    + intros a b H N. unfold id_asc in H. apply Z.leb_le in H. lia.
    + eapply Permutation_NoDup;
        [apply Permutation_map, sort_by_perm|].
      generalize (wf_attachment_ids d Hwf).
      induction (attachments d) as [|x l IH]; simpl; intros Hnd;
        [constructor|].
      inversion Hnd as [|? ? Hx Hnd']; subst.
      destruct (a_entry_id x =? entry_id); simpl; [|auto].
      constructor; [|auto]. intros Hin. apply Hx.
      apply in_map_iff in Hin. destruct Hin as (y & E & Hy).
      apply filter_In in Hy. rewrite <- E. apply in_map. tauto.
    + apply sort_by_sorted.
      * intros a b. unfold id_asc. rewrite !Z.leb_le. lia.
      * intros a b c. unfold id_asc. rewrite !Z.leb_le. lia.
Qed.

Lemma get_attachments_sorted_witness :
  map a_filename (get_attachments attached_db 1) = ["plot.png"; "log.txt"] /\
  StronglySorted (fun a b => a_id a < a_id b) (get_attachments attached_db 1).
Proof.
  split; [reflexivity|].
  apply (proj2 (get_attachments_sorted attached_db 1
                  (insert_attachment_wf _ _ _ _ _
                     (insert_attachment_wf _ _ _ _ _ wf_atlas_db)))).
Defined.

(** ** Which entries a filter lists *)

Lemma is_true_and (a b : option bool) :
  is_true (sql_and a b) = is_true a && is_true b.
Proof. destruct a as [[]|], b as [[]|]; reflexivity. Qed.

Lemma fold_and_forallb (e : entry) (cs : list condition) (acc : option bool) :
  is_true (fold_left (fun a c => sql_and a (eval_condition e c)) cs acc) =
  is_true acc && forallb (fun c => is_true (eval_condition e c)) cs.
Proof.
  revert acc. induction cs as [|c cs IH]; intros acc; simpl.
  - rewrite andb_true_r. reflexivity.
  - rewrite IH, is_true_and, andb_assoc. reflexivity.
Qed.

(** The WHERE clause is true when each of its conditions is. *)
Lemma eval_where_forallb (cs : list condition) (e : entry) :
  eval_where cs e = forallb (fun c => is_true (eval_condition e c)) cs.
Proof.
  destruct cs as [|c cs]; [reflexivity|]. simpl. apply fold_and_forallb.
Qed.

Lemma row_of_id (ps : list project) (e : entry) : r_id (row_of ps e) = e_id e.
Proof. reflexivity. Qed.

(** An entry of the table has a row in the result exactly when the WHERE
    clause is true of it. *)
Lemma entry_listed_iff (d : db) (f : query_filter) (e : entry) :
  wf_db d -> In e (entries d) ->
  (exists r, In r (query_entries d f) /\ r_id r = e_id e) <->
  eval_where (conditions f) e = true.
Proof.
  intros Hwf He. split.
  - intros (r & Hr & Hid).
    apply (in_query_entries d f r (wf_project_ids d Hwf)) in Hr.
    destruct Hr as (e' & He' & Hw & ->). rewrite row_of_id in Hid.
    rewrite <- (key_injective e_id (entries d) e' e
                  (wf_entry_ids d Hwf) He' He Hid).
    assumption.
  - intros Hw. exists (row_of (projects d) e). split; [|reflexivity].
    apply (in_query_entries d f _ (wf_project_ids d Hwf)). eauto.
Qed.

Lemma NoDup_map_filter {A K : Type} (key : A -> K) (p : A -> bool) (l : list A) :
  NoDup (map key l) -> NoDup (map key (filter p l)).
Proof.
  induction l as [|x l IH]; simpl; intros Hnd; [constructor|].
  inversion Hnd as [|? ? Hx Hnd']; subst.
  destruct (p x); simpl; [|auto].
  constructor; [|auto]. intros Hin. apply Hx.
  apply in_map_iff in Hin. destruct Hin as (y & E & Hy).
  apply filter_In in Hy. rewrite <- E. apply in_map. tauto.
Qed.

(** Whatever the filter, no entry is listed twice: the ids of the rows
    returned are distinct. *)
Theorem query_entries_no_duplicates (d : db) (f : query_filter) :
  wf_db d -> NoDup (map r_id (query_entries d f)).
Proof.
  intros Hwf. rewrite (query_entries_rows d f (wf_project_ids d Hwf)).
  eapply Permutation_NoDup; [apply Permutation_map, sort_by_perm|].
  rewrite map_map.
  rewrite (map_ext _ e_id) by (intros; apply row_of_id).
  apply NoDup_map_filter. exact (wf_entry_ids d Hwf).
Qed.

Lemma query_entries_no_duplicates_witness :
  map r_id (query_entries atlas_db no_filter) = [2; 1] /\
  NoDup (map r_id (query_entries atlas_db no_filter)).
Proof.
  split; [reflexivity|].
  exact (query_entries_no_duplicates atlas_db no_filter wf_atlas_db).
Defined.



(** With a non-empty list of project ids: when one of them does not fit
    the 64-bit INTEGER of SQLite the call raises; when each of them fits
    and they are no more than the [?] the build takes, the call returns,
    and an entry is listed exactly when it refers to a project and that
    project's id is in the list: an entry without a project is not
    listed. *)
Theorem query_entries_project_filter
    (max_variable_number : Z) (d : db) (ids : list Z) (e : entry) :
  wf_db d -> In e (entries d) -> ids <> [] ->
  (forallb in_int64 ids = false ->
   query_entries_call max_variable_number d
     (mk_filter None None (Some ids) None None) = None) /\
  (forallb in_int64 ids = true ->
   Z.of_nat (List.length ids) <= max_variable_number ->
   exists rows,
     query_entries_call max_variable_number d
       (mk_filter None None (Some ids) None None) = Some rows /\
     ((exists r, In r rows /\ r_id r = e_id e) <->
      (exists pid, e_project_id e = Some pid /\ In pid ids))).
Proof.
  intros Hwf He Hne. split.
  - intros Hfit. apply query_entries_call_overflow.
    destruct ids as [|i ids]; [contradiction|]. unfold conditions.
    cbn [start end_ project_ids text tags_like truthy_opt_list
         truthy_opt_str truthy_str app forallb binds].
    cbn [forallb] in Hfit. rewrite Hfit. reflexivity.
  - intros Hfit Hv. eexists. split.
    + apply query_entries_call_returns; destruct ids as [|i ids];
        try contradiction; unfold conditions;
        cbn [start end_ project_ids text tags_like truthy_opt_list
             truthy_opt_str truthy_str app map fold_right forallb
             variable_number binds pattern_too_complex];
        [lia| |reflexivity].
      cbn [forallb] in Hfit. rewrite Hfit. reflexivity.
    + rewrite (entry_listed_iff d _ e Hwf He).
      destruct ids as [|i ids]; [contradiction|].
      unfold conditions.
      cbn [start end_ project_ids text tags_like truthy_opt_list
           truthy_opt_str app eval_where fold_left eval_condition].
      unfold sql_in. destruct (e_project_id e) as [pid|].
      * unfold is_true. split.
        -- destruct (existsb (Z.eqb pid) (i :: ids)) eqn:X; [|discriminate].
           intros _. apply existsb_exists in X. destruct X as (x & Hx & E).
           apply Z.eqb_eq in E. subst. eauto.
        -- intros (pid' & [= <-] & Hin).
           replace (existsb (Z.eqb pid) (i :: ids)) with true; [reflexivity|].
           symmetry. apply existsb_exists. exists pid. split; [assumption|].
           apply Z.eqb_refl.
      * split; [discriminate|]. intros (pid & E & _). discriminate.
Qed.

Lemma query_entries_project_filter_witness :
  (exists rows,
     query_entries_call 999 atlas_db
       (mk_filter None None (Some [1]) None None) = Some rows /\
     ~ exists r, In r rows /\ r_id r = 2) /\
  query_entries_call 999 atlas_db
    (mk_filter None None (Some [1; 2 ^ 63]) None None) = None.
Proof.
  split.
  - destruct (proj2 (query_entries_project_filter 999 atlas_db [1]
                       (mk_entry 2 "2024-03-02T08:00:00.250000" "Read papers"
                          None (Some "Review") (Some "") (Some "") None
                          (Some "") "2024-03-02T08:01:00")
                       wf_atlas_db (or_intror (or_introl eq_refl))
                       ltac:(discriminate))
                eq_refl ltac:(simpl; lia))
      as (rows & Hc & Hiff).
    exists rows. split; [exact Hc|]. intros H.
    apply (proj1 Hiff) in H. destruct H as (pid & E & _). discriminate E.
  - apply (proj1 (query_entries_project_filter 999 atlas_db [1; 2 ^ 63]
                    (mk_entry 2 "2024-03-02T08:00:00.250000" "Read papers"
                       None (Some "Review") (Some "") (Some "") None
                       (Some "") "2024-03-02T08:01:00")
                    wf_atlas_db (or_intror (or_introl eq_refl))
                    ltac:(discriminate))).
    reflexivity.
Defined.

(** The date bounds are inclusive at both ends: an entry whose timestamp
    [insert_entry] wrote is listed under a start and an end date exactly
    when its calendar date is not before the start and not after the
    end, and the timestamp is earlier than 9999-12-31T23:59:59.999500:
    from that instant on [DATE(ts)] is NULL and the entry is listed
    under no bound. *)
Theorem query_entries_date_range
    (d : db) (s en : date) (e : entry) (t : datetime) :
  wf_db d -> In e (entries d) ->
  e_ts e = isoformat t -> valid_datetime t = true ->
  valid_date s = true -> valid_date en = true ->
  (exists r,
     In r (query_entries d (mk_filter (Some s) (Some en) None None None)) /\
     r_id r = e_id e) <->
  (datetime_compare t end_of_time = Lt /\
   date_leb s (dt_date t) = true /\ date_leb (dt_date t) en = true).
Proof.
  intros Hwf He Hts Vt Vs Ve. rewrite (entry_listed_iff d _ e Hwf He).
  unfold conditions.
  cbn [start end_ project_ids text tags_like truthy_opt_list truthy_opt_str
       app eval_where fold_left].
  destruct (datetime_compare t end_of_time) eqn:R.
  1, 3: destruct (eval_date_bound_end_of_time e t (date_isoformat s) Hts Vt
                    ltac:(rewrite R; discriminate)) as [-> _];
    destruct (eval_date_bound_end_of_time e t (date_isoformat en) Hts Vt
                ltac:(rewrite R; discriminate)) as [_ ->];
    simpl; split; [discriminate|intros [? _]; discriminate].
  rewrite (eval_date_ge e t s Hts Vt R Vs), (eval_date_le e t en Hts Vt R Ve).
  destruct (date_leb s (dt_date t)), (date_leb (dt_date t) en); simpl;
    intuition congruence.
Qed.

Lemma query_entries_date_range_witness :
  (exists r,
     In r (query_entries atlas_db
             (mk_filter (Some (mk_date 2024 3 1)) (Some (mk_date 2024 3 1))
                None None None)) /\
     r_id r = 1) /\
  ~ (exists r,
       In r (query_entries atlas_db
               (mk_filter (Some (mk_date 2024 3 1)) (Some (mk_date 2024 3 1))
                  None None None)) /\
       r_id r = 2).
Proof.
  split.
  - apply (proj2 (query_entries_date_range atlas_db (mk_date 2024 3 1)
                    (mk_date 2024 3 1)
                    (mk_entry 1 "2024-03-01T09:30:00" "Ran calibration" (Some 1)
                       (Some "Experiment") (Some "calib,v2")
                       (Some "/home/u/atlas/run1")
                       (Some (S754_finite false 3 (-1))) (Some "Passed")
                       "2024-03-01T09:31:00")
                    sample_time wf_atlas_db (or_introl eq_refl)
                    eq_refl eq_refl eq_refl eq_refl)).
    repeat split.
  - intros H.
    apply (proj1 (query_entries_date_range atlas_db (mk_date 2024 3 1)
                    (mk_date 2024 3 1)
                    (mk_entry 2 "2024-03-02T08:00:00.250000" "Read papers" None
                       (Some "Review") (Some "") (Some "") None (Some "")
                       "2024-03-02T08:01:00")
                    later_time wf_atlas_db (or_intror (or_introl eq_refl))
                    eq_refl eq_refl eq_refl eq_refl)) in H.
    destruct H as (_ & _ & H). discriminate H.
Defined.

(** The tag filter, with an entry stored.  A text of more than 49998
    bytes makes the call raise.  For a non-empty text [s] of at most
    49998 bytes without [%], [_] and NUL the call returns, and an entry
    is listed exactly when its tags are not NULL and contain [s],
    before their first NUL if they have one, as a substring up to ASCII
    case. *)
Theorem query_entries_tags_filter
    (max_variable_number : Z) (d : db) (s : string) (e : entry) :
  wf_db d -> In e (entries d) -> 1 <= max_variable_number ->
  (49998 < utf8_bytes s ->
   query_entries_call max_variable_number d
     (mk_filter None None None None (Some s)) = None) /\
  (no_wildcard s = true -> no_nul s = true -> utf8_bytes s <= 49998 ->
   s <> "" ->
   exists rows,
     query_entries_call max_variable_number d
       (mk_filter None None None None (Some s)) = Some rows /\
     ((exists r, In r rows /\ r_id r = e_id e) <->
      (exists t, e_tags e = Some t /\ ci_substring s (c_str t)))).
Proof.
  intros Hwf He Hv. split.
  - intros Hl. apply (query_entries_call_refused _ d _ e He).
    destruct s as [|c s]; [simpl in Hl; lia|]. unfold conditions.
    cbn [start end_ project_ids text tags_like truthy_opt_list
         truthy_opt_str truthy_str app like_refused pattern_too_complex].
    rewrite (pattern_exceeds _ Hl). reflexivity.
  - intros Hs Hn Hl Hne. eexists. split.
    + apply query_entries_call_returns; destruct s as [|c s];
        try contradiction; unfold conditions;
        cbn [start end_ project_ids text tags_like truthy_opt_list
             truthy_opt_str truthy_str app map fold_right forallb
             variable_number binds pattern_too_complex];
        [lia|reflexivity|].
      rewrite (pattern_fits _ Hl). reflexivity.
    + rewrite (entry_listed_iff d _ e Hwf He).
      destruct s as [|c s]; [contradiction|].
      unfold conditions.
      cbn [start end_ project_ids text tags_like truthy_opt_list
           truthy_opt_str truthy_str app eval_where fold_left eval_condition].
      rewrite <- (sql_like_true (e_tags e) (String c s) Hs Hn).
      destruct (sql_like (e_tags e) ("%" ++ String c s ++ "%")) as [[]|];
        simpl; intuition congruence.
Qed.

Lemma query_entries_tags_filter_witness :
  query_entries_call 999 atlas_db
    (mk_filter None None None None (Some long_text)) = None /\
  exists rows,
    query_entries_call 999 atlas_db
      (mk_filter None None None None (Some "calib")) = Some rows /\
    exists r, In r rows /\ r_id r = 1.
Proof.
  split.
  { apply (proj1 (query_entries_tags_filter 999 atlas_db long_text
                    (mk_entry 1 "2024-03-01T09:30:00" "Ran calibration"
                       (Some 1) (Some "Experiment") (Some "calib,v2")
                       (Some "/home/u/atlas/run1")
                       (Some (S754_finite false 3 (-1))) (Some "Passed")
                       "2024-03-01T09:31:00")
                    wf_atlas_db (or_introl eq_refl) ltac:(lia))).
    vm_compute. reflexivity. }
  destruct (proj2 (query_entries_tags_filter 999 atlas_db "calib"
                     (mk_entry 1 "2024-03-01T09:30:00" "Ran calibration"
                        (Some 1) (Some "Experiment") (Some "calib,v2")
                        (Some "/home/u/atlas/run1")
                        (Some (S754_finite false 3 (-1))) (Some "Passed")
                        "2024-03-01T09:31:00")
                     wf_atlas_db (or_introl eq_refl) ltac:(lia))
              eq_refl eq_refl ltac:(vm_compute; discriminate)
              ltac:(discriminate))
    as (rows & Hc & Hiff).
  exists rows. split; [exact Hc|]. apply (proj2 Hiff).
  exists "calib,v2". split; [reflexivity|].
  exists "", "calib", ",v2". split; reflexivity.
Defined.

(** ** Insert, then query again *)



(** ** What [strip] leaves *)

Lemma lstrip_first (s : string) (c : ascii) :
  first_char (lstrip s) = Some c -> isspace c = false.
Proof.
  induction s as [|x s IH]; simpl; [discriminate|].
  destruct (isspace x) eqn:E; [exact IH|].
  simpl. intros [= <-]. exact E.
Qed.

Lemma lstrip_empty (s : string) : lstrip s = "" <-> all_space s = true.
Proof.
  induction s as [|x s IH]; simpl; [tauto|].
  destruct (isspace x); simpl; [exact IH|].
  split; discriminate.
Qed.

Lemma rstrip_empty (s : string) : rstrip s = "" <-> all_space s = true.
Proof.
  induction s as [|x s IH]; simpl; [tauto|].
  destruct (rstrip s) eqn:R.
  - destruct (isspace x); simpl; [tauto|]. split; discriminate.
  - split; [discriminate|]. rewrite andb_true_iff. intros [_ H].
    apply IH in H. discriminate.
Qed.

Lemma rstrip_cons (x : ascii) (s : string) :
  isspace x = false -> rstrip (String x s) = String x (rstrip s).
Proof. intros E. simpl. destruct (rstrip s); [rewrite E|]; reflexivity. Qed.

Lemma rstrip_first (s : string) (c : ascii) :
  (forall x, first_char s = Some x -> isspace x = false) ->
  first_char (rstrip s) = Some c -> isspace c = false.
Proof.
  destruct s as [|x s]; [discriminate|]. intros H.
  rewrite (rstrip_cons x s (H x eq_refl)). simpl. intros [= <-]. auto.
Qed.

Lemma rstrip_last (s : string) (c : ascii) :
  last_char (rstrip s) = Some c -> isspace c = false.
Proof.
  induction s as [|x s IH]; simpl; [discriminate|].
  destruct (rstrip s) as [|y t] eqn:R.
  - destruct (isspace x) eqn:E; simpl; [discriminate|].
    intros [= <-]. exact E.
  - simpl. exact IH.
Qed.

Lemma lstrip_id (s : string) :
  (forall x, first_char s = Some x -> isspace x = false) -> lstrip s = s.
Proof.
  destruct s as [|x s]; [reflexivity|]. intros H. simpl.
  rewrite (H x eq_refl). reflexivity.
Qed.

Lemma rstrip_idem (s : string) : rstrip (rstrip s) = rstrip s.
Proof.
  induction s as [|x s IH]; [reflexivity|]. simpl.
  destruct (rstrip s) as [|y t] eqn:R.
  - destruct (isspace x) eqn:E; [reflexivity|]. simpl. rewrite E. reflexivity.
  - change (rstrip (String x (String y t)) = String x (String y t)).
    simpl. simpl in IH. rewrite IH. destruct (rstrip t); reflexivity.
Qed.

Lemma strip_trimmed (s : string) : trimmed (strip s).
Proof.
  unfold strip. split.
  - intros c. apply rstrip_first. intros x. apply lstrip_first.
  - intros c. apply rstrip_last.
Qed.

Lemma strip_idem (s : string) : strip (strip s) = strip s.
Proof.
  unfold strip at 1. rewrite lstrip_id by apply (proj1 (strip_trimmed s)).
  unfold strip. apply rstrip_idem.
Qed.

Lemma all_space_lstrip (s : string) : all_space (lstrip s) = all_space s.
Proof.
  induction s as [|x s IH]; [reflexivity|]. simpl.
  destruct (isspace x) eqn:E; simpl; [exact IH|]. rewrite E. reflexivity.
Qed.

Lemma strip_empty (s : string) : strip s = "" <-> all_space s = true.
Proof. unfold strip. rewrite rstrip_empty, all_space_lstrip. tauto. Qed.

Lemma truthy_strip (s : string) :
  truthy_str (strip s) = negb (all_space s).
Proof.
  destruct (all_space s) eqn:E.
  - apply strip_empty in E. rewrite E. reflexivity.
  - destruct (strip s) eqn:S; [|reflexivity].
    apply strip_empty in S. congruence.
Qed.

(** ** What the capture form stores *)

(** [quick_capture] stores nothing for a title that is empty or all
    white space.  When it stores an entry, the title is not empty and has
    no white space at either end, the tags and the path are trimmed as
    well, and the notes are stored as typed. *)
Theorem quick_capture_trims
    (d : db) (active_project_id : option Z) (f : capture_form) (now : string) :
  (all_space (f_title f) = true ->
   quick_capture d active_project_id f now = None) /\
  (forall id d',
     quick_capture d active_project_id f now = Some (Returned id, d') ->
     exists e,
       entries d' = (entries d ++ [e])%list /\ e_id e = id /\
       e_title e <> "" /\ trimmed (e_title e) /\
       (exists t, e_tags e = Some t /\ trimmed t) /\
       (exists p, e_path e = Some p /\ trimmed p) /\
       e_notes_md e = Some (f_notes f)).
Proof.
  unfold quick_capture. rewrite truthy_strip, negb_involutive. split.
  - intros ->. reflexivity.
  - intros id d'. destruct (all_space (f_title f)) eqn:E; [discriminate|].
    unfold insert_entry.
    destruct (project_fk_ok get_conn d active_project_id);
      [|destruct (opt_in_int64 active_project_id); discriminate].
    intros [= <- <-]. eexists. simpl. split; [reflexivity|].
    split; [reflexivity|]. split.
    + intros S. apply strip_empty in S. congruence.
    + split; [apply strip_trimmed|].
      split; [eexists; split; [reflexivity|apply strip_trimmed]|].
      split; [eexists; split; [reflexivity|apply strip_trimmed]|reflexivity].
Qed.

Lemma quick_capture_trims_witness :
  exists e,
    entries (mk_db [] 0 [mk_entry 1 "2024-03-01T09:30:00" "Calibrate" None
                           (Some "Experiment") (Some "") (Some "") None
                           (Some "") "2024-03-01T09:31:00"] 1 [] 0) =
    ([] ++ [e])%list /\
    e_title e <> "" /\ trimmed (e_title e).
Proof.
  destruct (proj2 (quick_capture_trims init_db None zero_duration_form
                     "2024-03-01T09:31:00") 1 _ eq_refl)
    as (e & He & _ & Hn & Ht & _).
  exists e. auto.
Defined.

(** ** The sidebar *)

Lemma Permutation_filter_same {A : Type} (p : A -> bool) (l l' : list A) :
  Permutation l l' -> Permutation (filter p l) (filter p l').
Proof.
  induction 1 as [|x l l' _ IH|x y l|l l' l'' _ IH1 _ IH2]; simpl.
  - constructor.
  - destruct (p x); [constructor|]; exact IH.
  - destruct (p x), (p y); try reflexivity. apply perm_swap.
  - etransitivity; eassumption.
Qed.

(** After [upsert_project], exactly one row carries the name, with the
    base path given. *)
Lemma upsert_project_row (d : db) (X : string) (b : option string)
    (now : string) :
  wf_db d ->
  exists p,
    filter (fun q => String.eqb (p_name q) X)
           (projects (snd (upsert_project d X b now))) = [p] /\
    p_name p = X /\ p_base_path p = b.
Proof.
  intros Hwf. unfold upsert_project.
  destruct (fetchone (select_project_ids d X)) as [old|] eqn:F; simpl.
  - rewrite filter_update_base_path.
    assert (Hin : In X (map p_name (projects d))).
    { destruct (in_dec string_dec X (map p_name (projects d))) as [H|H];
        [assumption|].
      apply select_project_ids_nil in H. rewrite H in F. discriminate. }
    apply in_map_iff in Hin. destruct Hin as (p & <- & Hp).
    rewrite (filter_key_unique p_name String.eqb String.eqb_eq p _
               (wf_project_names d Hwf) Hp).
    exists (set_base_path b p). auto.
  - apply fetchone_none, select_project_ids_nil in F.
    unfold insert_project_row.
    rewrite (proj2 (existsb_key_false p_name String.eqb String.eqb_eq _ _) F).
    simpl. rewrite filter_app. simpl. rewrite String.eqb_refl.
    rewrite (filter_key_absent p_name String.eqb String.eqb_eq X _ F).
    eexists. split; [reflexivity|]. auto.
Qed.

Lemma existsb_Permutation {A : Type} (f : A -> bool) (l l' : list A) :
  Permutation l l' -> existsb f l = existsb f l'.
Proof.
  induction 1 as [|x l l' _ IH|x y l|l l' l'' _ IH1 _ IH2]; simpl.
  - reflexivity.
  - rewrite IH. reflexivity.
  - destruct (f x), (f y); reflexivity.
  - congruence.
Qed.

(** The [Save project] button rejects a name that is empty or all white
    space.  Otherwise it saves, under the trimmed name; and when the
    base-path field was left blank the project has no base path, so that
    selecting it afterwards makes it the active project with, as its
    base path, the text of a missing value: [nan] when pandas infers
    the string type and some project has a base path, [None] otherwise.
    The path field of the capture form then starts with that text. *)
Theorem sidebar_blank_base_path
    (none_label : string) (infer_string : bool) (d : db)
    (pname pbase now : string) :
  wf_db d ->
  (all_space pname = true -> sidebar_save_project d pname pbase now = None) /\
  (all_space pname = false -> all_space pbase = true ->
   strip pname <> none_label ->
   exists d' id missing,
     sidebar_save_project d pname pbase now = Some (Returned tt, d') /\
     get_project_id_by_name d' (strip pname) = Some id /\
     missing = (if infer_string && existsb has_base_path (projects d')
                then "nan" else "None") /\
     sidebar_active none_label infer_string d' (strip pname) =
       Some (Some id, missing) /\
     suggested_path missing = missing).
Proof.
  intros Hwf. unfold sidebar_save_project. rewrite truthy_strip. split.
  - intros ->. reflexivity.
  - intros -> Hb Hn. simpl negb. cbv iota.
    apply strip_empty in Hb. rewrite Hb. unfold or_none. simpl truthy_str.
    cbv iota.
    pose proof (upsert_project_returns d (strip pname) None now) as Hr.
    pose proof (upsert_project_wf d (strip pname) None now Hwf) as Hwf'.
    destruct (upsert_project_row d (strip pname) None now Hwf)
      as (p & Hf & Hname & Hbase).
    destruct (upsert_project d (strip pname) None now) as [o d'] eqn:U.
    simpl in *. subst o.
    exists d', (p_id p). eexists. split; [reflexivity|].
    split; [|split; [reflexivity|split]].
    + unfold get_project_id_by_name, select_project_ids. rewrite Hf.
      reflexivity.
    + unfold sidebar_active.
      destruct (String.eqb_spec (strip pname) none_label) as [E|_];
        [contradiction|]. simpl negb. cbv iota.
      assert (Hl : filter (fun q => String.eqb (p_name q) (strip pname))
                     (list_projects d') = [p]).
      { apply Permutation_length_1_inv. rewrite <- Hf.
        apply Permutation_filter_same. apply sort_by_perm. }
      rewrite Hl, Hbase. unfold str_base_path, py_str.
      rewrite (existsb_Permutation has_base_path (list_projects d')
                 (projects d'))
        by (symmetry; apply sort_by_perm).
      reflexivity.
    + destruct (infer_string && existsb has_base_path (projects d'));
        reflexivity.
Qed.

Lemma sidebar_blank_base_path_witness :
  (exists d' id,
     sidebar_save_project init_db " Atlas " "  " "2024-03-01T09:00:00" =
     Some (Returned tt, d') /\
     sidebar_active "- none -" true d' "Atlas" = Some (Some id, "None")) /\
  (exists d' id,
     sidebar_save_project atlas_db " Beta " "  " "2024-03-03T09:00:00" =
     Some (Returned tt, d') /\
     sidebar_active "- none -" true d' "Beta" = Some (Some id, "nan") /\
     sidebar_active "- none -" false d' "Beta" = Some (Some id, "None")).
Proof.
  split.
  - destruct (proj2 (sidebar_blank_base_path "- none -" true init_db " Atlas "
                       "  " "2024-03-01T09:00:00" wf_init_db)
                eq_refl eq_refl ltac:(discriminate))
      as (d' & id & missing & Hs & _ & Hm & Ha & _).
    change (strip " Atlas ") with "Atlas" in Ha.
    exists d', id. split; [exact Hs|].
    rewrite Ha, Hm. clear Ha Hm. vm_compute in Hs. injection Hs as <-.
    reflexivity.
  - destruct (proj2 (sidebar_blank_base_path "- none -" true atlas_db " Beta "
                       "  " "2024-03-03T09:00:00" wf_atlas_db)
                eq_refl eq_refl ltac:(discriminate))
      as (d' & id & missing & Hs & Hg & Hm & Ha & _).
    change (strip " Beta ") with "Beta" in Ha, Hg.
    exists d', id. split; [exact Hs|].
    rewrite Ha, Hm. clear Ha Hm. vm_compute in Hs. injection Hs as <-.
    vm_compute in Hg. injection Hg as <-.
    split; reflexivity.
Defined.

(** ** The viewer *)

(** The viewer passes the ids of the selected projects to the query.  As
    soon as that list is not empty an entry without a project is not
    shown; and with the selection the viewer starts with - every project
    - the list is not empty once a project exists. *)
Theorem entries_view_hides_entries_without_project
    (d : db) (start_date end_date : date) (search tag : string) (e : entry) :
  wf_db d -> In e (entries d) -> e_project_id e = None ->
  (forall names,
     selected_ids d names <> [] ->
     ~ exists r,
         In r (entries_view_rows d start_date end_date names search tag) /\
         r_id r = e_id e) /\
  (projects d <> [] -> selected_ids d (default_selection d) <> []).
Proof.
  intros Hwf He Hnone. split.
  - intros names Hsel H. unfold entries_view_rows in H.
    apply (entry_listed_iff d _ e Hwf He) in H.
    rewrite eval_where_forallb in H. unfold conditions in H.
    cbn [start end_ project_ids] in H.
    destruct (selected_ids d names) as [|i ids] eqn:S; [contradiction|].
    cbn [truthy_opt_list] in H.
    rewrite !forallb_app in H. cbn [forallb eval_condition] in H.
    rewrite Hnone in H. cbn [sql_in is_true] in H.
    rewrite !andb_true_iff in H. simpl in H. intuition discriminate.
  - intros Hne. unfold selected_ids, default_selection.
    rewrite filter_all.
    + intros E. apply map_eq_nil in E.
      pose proof (sort_by_perm name_asc (projects d)) as P.
      fold (list_projects d) in P. rewrite E in P.
      apply Permutation_sym, Permutation_nil in P. contradiction.
    + intros p Hp. unfold isin. apply existsb_exists. exists (p_name p).
      split; [apply in_map; assumption|apply String.eqb_refl].
Qed.

Lemma entries_view_hides_entries_without_project_witness :
  ~ exists r,
      In r (entries_view_rows atlas_db (mk_date 2024 2 16) (mk_date 2024 3 2)
              (default_selection atlas_db) "" "") /\
      r_id r = 2.
Proof.
  destruct (entries_view_hides_entries_without_project atlas_db
              (mk_date 2024 2 16) (mk_date 2024 3 2) "" ""
              (mk_entry 2 "2024-03-02T08:00:00.250000" "Read papers" None
                 (Some "Review") (Some "") (Some "") None (Some "")
                 "2024-03-02T08:01:00")
              wf_atlas_db (or_intror (or_introl eq_refl)) eq_refl)
    as [H1 H2].
  apply H1. apply H2. discriminate.
Defined.

(** ** Rerunning the page *)

(** [do_rerun] reruns the page when Streamlit has [rerun], and warns when
    it has neither [rerun] nor [experimental_rerun].  When it has only
    [experimental_rerun] the function calls itself and never Streamlit:
    however deep a stack is allowed, the call ends in its exhaustion. *)
Theorem do_rerun_outcome (st : streamlit) (depth : nat) :
  do_rerun depth st =
  if has_rerun st then St_rerun
  else if has_experimental_rerun st then RecursionError
  else St_warning.
Proof.
  induction depth as [|depth IH]; simpl.
  - destruct (has_rerun st), (has_experimental_rerun st); reflexivity.
  - rewrite IH.
    destruct (has_rerun st), (has_experimental_rerun st); reflexivity.
Qed.

(** ** Uploaded files *)

Lemma splitroot_plain (s : string) :
  String.prefix "/" s = false -> splitroot s = "".
Proof.
  destruct s as [|c s]; [reflexivity|]. simpl.
  destruct (ascii_dec "/" c) as [<-|N]; [destruct s; discriminate|].
  intros _. destruct (Ascii.eqb_spec c "/") as [->|_]; [contradiction|].
  reflexivity.
Qed.

Lemma attach_base_relative (entry_id : Z) :
  root (joinpath ATTACH_DIR (parse_path ("entry_" ++ str_of_int entry_id))) = "".
Proof. reflexivity. Qed.

Lemma relative_to_rooted (p other : path) :
  root p = "" -> root other <> "" -> relative_to p other = None.
Proof.
  intros Hp Ho. unfold relative_to. rewrite Hp.
  destruct (String.eqb_spec "" (root other)) as [E|_]; [|reflexivity].
  congruence.
Qed.

(** One step of the loop on a file whose name is not rooted, under a
    base that is not rooted, in a rooted working directory. *)
Lemma save_each_plain_name
    (cwd : path) (can_open : string -> bool) (entry_id : Z) (base : path)
    (uf : uploaded_file) (now : string)
    (rest : list (uploaded_file * string)) (saved : list (string * string))
    (w : world) :
  root cwd <> "" -> root base = "" ->
  String.prefix "/" (uf_name uf) = false ->
  save_each cwd can_open entry_id base ((uf, now) :: rest) saved w =
  let dest := path_str (joinpath base (parse_path (uf_name uf))) in
  if can_open dest
  then (Exception ValueError,
        mk_world (w_db w) (write_file dest (uf_bytes uf) (w_files w)))
  else (Exception OSError, w).
Proof.
  intros Hcwd Hbase Hname. cbn [save_each]. cbv zeta.
  destruct (can_open _); [|reflexivity].
  rewrite relative_to_rooted; [reflexivity| |assumption].
  unfold joinpath. cbn [parse_path root].
  rewrite (splitroot_plain _ Hname). simpl. assumption.
Qed.

(** [save_uploaded_files] on an upload whose file name does not begin
    with a slash - any plain file name - never records it: the
    destination is a relative path, the working directory an absolute
    one, so [relative_to] raises.  The file has been written by then; no
    attachment row is inserted, for this file or for those after it. *)
Theorem save_uploaded_files_plain_name
    (cwd : path) (can_mkdir can_open : string -> bool) (w : world)
    (entry_id : Z) (uf : uploaded_file) (now : string)
    (rest : list (uploaded_file * string)) :
  root cwd <> "" -> String.prefix "/" (uf_name uf) = false ->
  let base := joinpath ATTACH_DIR (parse_path ("entry_" ++ str_of_int entry_id)) in
  let dest := path_str (joinpath base (parse_path (uf_name uf))) in
  let r := save_uploaded_files cwd can_mkdir can_open w entry_id
             ((uf, now) :: rest) in
  w_db (snd r) = w_db w /\
  (forall saved, fst r <> Done saved) /\
  (can_mkdir (path_str base) = true -> can_open dest = true ->
   fst r = Exception ValueError /\
   w_files (snd r) = write_file dest (uf_bytes uf) (w_files w)).
Proof.
  intros Hcwd Hname base dest r. subst r. unfold save_uploaded_files.
  fold base. destruct (can_mkdir (path_str base)).
  - rewrite (save_each_plain_name cwd can_open entry_id base uf now rest [] w
               Hcwd (attach_base_relative entry_id) Hname).
    cbv zeta. fold dest. destruct (can_open dest); simpl.
    + repeat split; try discriminate; reflexivity.
    + repeat split; try discriminate.
  - simpl. repeat split; try discriminate.
Qed.

Lemma save_uploaded_files_plain_name_witness :
  let r := save_uploaded_files (parse_path "/home/u/app") (fun _ => true)
             (fun _ => true) (mk_world one_entry_db []) 1
             [(mk_uploaded_file "a.txt" "bytes", "2024-03-01T10:00:00")] in
  fst r = Exception ValueError /\
  w_files (snd r) = [("attachments/entry_1/a.txt", "bytes")] /\
  attachments (w_db (snd r)) = [].
Proof.
  intros r.
  destruct (save_uploaded_files_plain_name (parse_path "/home/u/app")
              (fun _ => true) (fun _ => true) (mk_world one_entry_db []) 1
              (mk_uploaded_file "a.txt" "bytes") "2024-03-01T10:00:00" []
              ltac:(discriminate) eq_refl)
    as (Hdb & _ & H).
  destruct (H eq_refl eq_refl) as [Hr Hf].
  split; [exact Hr|]. split; [exact Hf|].
  fold r in Hdb. rewrite Hdb. reflexivity.
Defined.

(** Saving an entry from the capture form together with an uploaded file
    of a plain name: the entry is inserted and committed, then the
    handler ends in an exception - no attachment row is written and the
    handler never reaches its success message. *)
Theorem quick_capture_submit_with_upload
    (cwd : path) (can_mkdir can_open : string -> bool) (w : world)
    (active_project_id : option Z) (f : capture_form) (now : string)
    (uf : uploaded_file) (now' : string)
    (rest : list (uploaded_file * string)) :
  root cwd <> "" -> String.prefix "/" (uf_name uf) = false ->
  all_space (f_title f) = false ->
  project_fk_ok get_conn (w_db w) active_project_id = true ->
  exists ex w' e,
    quick_capture_submit cwd can_mkdir can_open w active_project_id f now
      ((uf, now') :: rest) = Some (Exception ex, w') /\
    (ex = ValueError \/ ex = OSError) /\
    entries (w_db w') = (entries (w_db w) ++ [e])%list /\
    e_title e = strip (f_title f) /\
    attachments (w_db w') = attachments (w_db w).
Proof.
  intros Hcwd Hname Ht Hfk. unfold quick_capture_submit, quick_capture.
  rewrite truthy_strip, Ht. simpl negb. cbv iota.
  unfold insert_entry. rewrite Hfk. cbv zeta iota beta.
  unfold save_uploaded_files.
  destruct (can_mkdir _).
  - rewrite (save_each_plain_name cwd can_open _ _ uf now' rest [] _
               Hcwd (attach_base_relative _) Hname).
    cbv zeta. destruct (can_open _).
    + do 3 eexists. split; [reflexivity|]. simpl. auto.
    + do 3 eexists. split; [reflexivity|]. simpl. auto.
  - do 3 eexists. split; [reflexivity|]. simpl. auto.
Qed.

Lemma quick_capture_submit_with_upload_witness :
  exists ex w' e,
    quick_capture_submit (parse_path "/home/u/app") (fun _ => true)
      (fun _ => true) (mk_world init_db []) None zero_duration_form
      "2024-03-01T09:31:00"
      [(mk_uploaded_file "a.txt" "bytes", "2024-03-01T09:31:01")] =
    Some (Exception ex, w') /\
    (ex = ValueError \/ ex = OSError) /\
    entries (w_db w') = [e] /\ e_title e = "Calibrate" /\
    attachments (w_db w') = [].
Proof.
  exact (quick_capture_submit_with_upload (parse_path "/home/u/app")
           (fun _ => true) (fun _ => true) (mk_world init_db []) None
           zero_duration_form "2024-03-01T09:31:00"
           (mk_uploaded_file "a.txt" "bytes") "2024-03-01T09:31:01" []
           ltac:(discriminate) eq_refl eq_refl eq_refl).
Defined.
